(** * Parallax.js: a shallow embedding and its verified properties

    The program is one JavaScript constructor, [Parallax], with the methods
    of its prototype.  It reads the geometry of a DOM element and of the
    window, keeps two scroll bounds, and writes a background position into
    the element's style.

    Modelling choices.
    - A JavaScript Number is a value of [num]: an exact rational, the two
      infinities, or NaN.  Rounding of binary64 is not modelled and the two
      zeros are identified; division by zero, the infinities and NaN follow
      IEEE 754 as JavaScript has it.  A statement that rounding could
      falsify is made where it cannot: on integers small enough for the
      sums to be exact, or with an inequality that rounding keeps.
    - [offsetTop], [offsetHeight], [innerHeight] and [innerWidth] are DOM
      [long]s, hence [Z]; [pageYOffset] is a finite double, hence [Qc].
    - The methods run in a state monad over the receiver [this] and the host
      (window, DOM, the calls made to the host), as the source threads them. *)

From Stdlib Require Import ZArith QArith Qcanon String List Bool Lia.
From Stdlib Require Import DecimalString Relation_Operators.
Import ListNotations.

Local Open Scope Z_scope.

(** ** JavaScript numbers *)

Inductive num : Type :=
| Fin (q : Qc)
| PInf
| NInf
| NaN.

Definition of_Z (z : Z) : num := Fin (Q2Qc (inject_Z z)).

Definition num_neg (a : num) : num :=
  match a with
  | Fin q => Fin (- q)%Qc
  | PInf => NInf
  | NInf => PInf
  | NaN => NaN
  end.

(** [a + b]: the exact sum of two finite numbers (binary64 would round
    it), and the sums of IEEE 754 with an infinity or NaN. *)
Definition num_add (a b : num) : num :=
  match a, b with
  | NaN, _ | _, NaN => NaN
  | Fin x, Fin y => Fin (x + y)%Qc
  | PInf, NInf | NInf, PInf => NaN
  | PInf, _ | _, PInf => PInf
  | NInf, _ | _, NInf => NInf
  end.

Definition num_sub (a b : num) : num := num_add a (num_neg b).

(** The sign of a number as a [comparison] with zero; NaN has none. *)
Definition num_sign (a : num) : option comparison :=
  match a with
  | Fin q => Some (q ?= 0)%Qc
  | PInf => Some Gt
  | NInf => Some Lt
  | NaN => None
  end.

(** An infinity of the given sign; sign [Eq] (a zero factor) gives NaN. *)
Definition inf_of_sign (c : comparison) : num :=
  match c with
  | Gt => PInf
  | Lt => NInf
  | Eq => NaN
  end.

Definition sign_mul (c d : comparison) : comparison :=
  match c, d with
  | Eq, _ | _, Eq => Eq
  | Gt, Gt | Lt, Lt => Gt
  | Gt, Lt | Lt, Gt => Lt
  end.

Definition num_mul (a b : num) : num :=
  match a, b with
  | Fin x, Fin y => Fin (x * y)%Qc
  | _, _ =>
      match num_sign a, num_sign b with
      | Some c, Some d => inf_of_sign (sign_mul c d)
      | _, _ => NaN
      end
  end.

(** [a / b].  A finite number divided by zero is an infinity of the sign of
    the dividend, and NaN when the dividend is zero too (the zero divisor
    counts as +0).  The quotient of two finite numbers is exact: binary64
    would round it, to an infinity when it is too large. *)
Definition num_div (a b : num) : num :=
  match a, b with
  | NaN, _ | _, NaN => NaN
  | Fin x, Fin y =>
      if Qc_eq_bool y 0 then inf_of_sign (x ?= 0)%Qc else Fin (x / y)%Qc
  | Fin _, _ => Fin 0%Qc
  | _, Fin y =>
      match (y ?= 0)%Qc with
      | Lt => num_neg a
      | _ => a
      end
  | _, _ => NaN
  end.

(** [a < b] of JavaScript: false as soon as one side is NaN. *)
Definition num_ltb (a b : num) : bool :=
  match a, b with
  | NaN, _ | _, NaN => false
  | Fin x, Fin y => match (x ?= y)%Qc with Lt => true | _ => false end
  | NInf, NInf => false
  | NInf, _ => true
  | _, NInf => false
  | PInf, _ => false
  | _, PInf => true
  end.

(** [a > b] is [b < a]. *)
Definition num_gtb (a b : num) : bool := num_ltb b a.

(** [a <= b] of JavaScript: [a < b] or [a == b], false with a NaN. *)
Definition num_leb (a b : num) : bool :=
  match a, b with
  | NaN, _ | _, NaN => false
  | _, _ => negb (num_ltb b a)
  end.

Definition num_lt (a b : num) : Prop := num_ltb a b = true.
Definition num_le (a b : num) : Prop := num_leb a b = true.

(** ToBoolean on a number: 0 and NaN are falsy. *)
Definition truthy (a : num) : bool :=
  match a with
  | Fin q => negb (Qc_eq_bool q 0)
  | PInf | NInf => true
  | NaN => false
  end.

(** [v || d] where [v] is a property that may be absent ([undefined]). *)
Definition or_num (v : option num) (d : num) : num :=
  match v with
  | Some a => if truthy a then a else d
  | None => d
  end.

(** Reading a property in a numeric context: [undefined] becomes NaN. *)
Definition to_number (v : option num) : num :=
  match v with
  | Some a => a
  | None => NaN
  end.

Definition or_bool (v : option bool) (d : bool) : bool :=
  match v with
  | Some true => true
  | _ => d
  end.

Definition is_finite (a : num) : Prop :=
  match a with
  | Fin _ => True
  | _ => False
  end.

(** ** Where the arithmetic is exact *)

(** The values of a DOM [long]. *)
Definition long (z : Z) : Prop := - 2 ^ 31 <= z < 2 ^ 31.

(** An integer of magnitude at most 2^52.  A sum of such a number and of a
    few differences of [long]s is an integer below 2^53, which binary64
    holds exactly: there the exact sum is the sum of JavaScript. *)
Definition small_integer (a : num) : bool :=
  match a with
  | Fin q => (Z.pos (Qden q) =? 1)%Z && (Z.abs (Qnum q) <=? 2 ^ 52)%Z
  | _ => false
  end.

(** ** Strings built from numbers *)

Local Open Scope string_scope.

(** Number::toString.  Integers up to 2^53 in magnitude are numbers of
    binary64 and print as their decimal digits; the digits of any other
    finite value depend on its binary64 rounding and are left out
    ([None]). *)
Definition num_to_string (a : num) : option string :=
  match a with
  | NaN => Some "NaN"
  | PInf => Some "Infinity"
  | NInf => Some "-Infinity"
  | Fin q =>
      if (Z.pos (Qden q) =? 1)%Z && (Z.abs (Qnum q) <=? 2 ^ 53)%Z
      then Some (NilZero.string_of_int (Z.to_int (Qnum q)))
      else None
  end.

(** A string value: a literal, or the concatenation [pre + n + post] of two
    literals around a number, kept unevaluated so that the number written
    stays visible. *)
Inductive jsstr : Type :=
| Lit (s : string)
| Cat3 (pre : string) (n : num) (post : string).

Definition jsstr_text (v : jsstr) : option string :=
  match v with
  | Lit s => Some s
  | Cat3 pre n post =>
      match num_to_string n with
      | Some d => Some (pre ++ d ++ post)
      | None => None
      end
  end.

(** ** The host: window and DOM *)

(** Identity of a DOM node and of a function object. *)
Definition NodeRef := nat.
Definition Fn := nat.

Record Style : Type := mkStyle {
  backgroundPosition : jsstr;
  transition : jsstr
}.

Record Element : Type := mkElement {
  offsetTop : Z;
  offsetHeight : Z;
  style : Style
}.

Record Window : Type := mkWindow {
  innerHeight : Z;
  innerWidth : Z;
  pageYOffset : Qc;
  (** listeners added with [addEventListener], oldest first *)
  onscroll : list Fn;
  onresize : list Fn
}.

(** The calls the script makes to the host, newest first. *)
Inductive HostCall : Type :=
| SetBackgroundPosition (node : NodeRef) (v : jsstr)
| SetTransition (node : NodeRef) (v : jsstr)
| AddEventListener (type : string) (f : Fn)
| RemoveEventListener (type : string) (f : Fn).

Record Host : Type := mkHost {
  window : Window;
  dom : NodeRef -> Element;
  calls : list HostCall;
  (** the next function object that has not been created yet *)
  next_fn : Fn
}.

(** ** Configuration and receiver *)

(** The [cfg] object of the caller; [None] is an absent property. *)
Module Cfg.
Record t : Type := mk {
  element : option NodeRef;
  startOffset : option num;
  distance : option num;
  start : option num;
  stop : option num;
  breakpoint : option num;
  throttling : option num;
  cssTrans : option bool
}.

Definition set_start (v : num) (c : t) : t :=
  mk (element c) (startOffset c) (distance c) (Some v) (stop c)
     (breakpoint c) (throttling c) (cssTrans c).

Definition set_stop (v : num) (c : t) : t :=
  mk (element c) (startOffset c) (distance c) (start c) (Some v)
     (breakpoint c) (throttling c) (cssTrans c).
End Cfg.

(** The object under construction and afterwards: [this]. *)
Module This.
Record t : Type := mk {
  element : NodeRef;
  startOffset : num;
  distance : num;
  start : num;
  stop : num;
  breakpoint : num;
  throttling : num;
  cssTrans : bool;
  registerMe : Fn
}.
End This.

(** ** The state monad of the methods *)

Record St : Type := mkSt {
  self : This.t;
  host : Host
}.

Definition M (A : Type) : Type := St -> A * St.

Definition ret {A : Type} (a : A) : M A := fun s => (a, s).

Definition bind {A B : Type} (m : M A) (k : A -> M B) : M B :=
  fun s => let (a, s') := m s in k a s'.

Definition gets {A : Type} (f : St -> A) : M A := fun s => (f s, s).

Definition modify_host (f : Host -> Host) : M unit :=
  fun s => (tt, mkSt (self s) (f (host s))).

Definition eval {A : Type} (m : M A) (s : St) : A := fst (m s).
Definition exec {A : Type} (m : M A) (s : St) : St := snd (m s).

Notation "x <- m ;; k" := (bind m (fun x => k))
  (at level 61, m at next level, right associativity).
Notation "m ;; k" := (bind m (fun _ => k))
  (at level 61, right associativity).

(** *** Reads *)

Definition this_element_of (s : St) : Element :=
  dom (host s) (This.element (self s)).

Definition window_pageYOffset : M num :=
  gets (fun s => Fin (pageYOffset (window (host s)))).
Definition window_innerHeight : M num :=
  gets (fun s => of_Z (innerHeight (window (host s)))).
Definition window_innerWidth : M num :=
  gets (fun s => of_Z (innerWidth (window (host s)))).
Definition this_element_offsetTop : M num :=
  gets (fun s => of_Z (offsetTop (this_element_of s))).
Definition this_element_offsetHeight : M num :=
  gets (fun s => of_Z (offsetHeight (this_element_of s))).
Definition this_ {A : Type} (field : This.t -> A) : M A :=
  gets (fun s => field (self s)).

(** *** Writes *)

Definition update_node (r : NodeRef) (f : Element -> Element)
    (d : NodeRef -> Element) : NodeRef -> Element :=
  fun r' => if Nat.eqb r' r then f (d r') else d r'.

Definition with_backgroundPosition (v : jsstr) (e : Element) : Element :=
  mkElement (offsetTop e) (offsetHeight e)
    (mkStyle v (transition (style e))).

Definition with_transition (v : jsstr) (e : Element) : Element :=
  mkElement (offsetTop e) (offsetHeight e)
    (mkStyle (backgroundPosition (style e)) v).

(** [this.element.style.backgroundPosition = v] *)
Definition set_backgroundPosition (v : jsstr) : M unit :=
  r <- this_ This.element ;;
  modify_host (fun h =>
    mkHost (window h) (update_node r (with_backgroundPosition v) (dom h))
      (SetBackgroundPosition r v :: calls h) (next_fn h)).

(** Whether [p] occurs in the literal parts of a string value; the digits
    of a number hold neither a colon nor a slash. *)
Definition has_substring (p s : string) : bool :=
  match index 0 p s with
  | Some _ => true
  | None => false
  end.

Definition jsstr_has (p : string) (v : jsstr) : bool :=
  match v with
  | Lit s => has_substring p s
  | Cat3 pre _ post => has_substring p pre || has_substring p post
  end.

(** The style setter of a DOM node parses the value it is given and
    discards the assignment when the value is not one of the property.  No
    value of [transition] (property names, times, easing functions, commas)
    has a colon, so a string with a colon outside a comment is discarded.
    Of the other strings nothing is decided here: they are stored. *)
Definition transition_discards (v : jsstr) : bool :=
  jsstr_has ":" v && negb (jsstr_has "/*" v).

(** [this.element.style.transition = v] *)
Definition set_transition (v : jsstr) : M unit :=
  r <- this_ This.element ;;
  modify_host (fun h =>
    mkHost (window h)
      (if transition_discards v
       then dom h
       else update_node r (with_transition v) (dom h))
      (SetTransition r v :: calls h) (next_fn h)).

(** [addEventListener] appends the listener unless it is in the list
    already; [removeEventListener] takes it out. *)
Definition add_listener (f : Fn) (l : list Fn) : list Fn :=
  if in_dec Nat.eq_dec f l then l else l ++ [f].

Definition remove_listener (f : Fn) (l : list Fn) : list Fn :=
  remove Nat.eq_dec f l.

Definition with_onscroll (f : list Fn -> list Fn) (w : Window) : Window :=
  mkWindow (innerHeight w) (innerWidth w) (pageYOffset w)
    (f (onscroll w)) (onresize w).

Definition with_onresize (f : list Fn -> list Fn) (w : Window) : Window :=
  mkWindow (innerHeight w) (innerWidth w) (pageYOffset w)
    (onscroll w) (f (onresize w)).

Definition window_addEventListener_scroll (f : Fn) : M unit :=
  modify_host (fun h =>
    mkHost (with_onscroll (add_listener f) (window h)) (dom h)
      (AddEventListener "scroll" f :: calls h) (next_fn h)).

Definition window_removeEventListener_scroll (f : Fn) : M unit :=
  modify_host (fun h =>
    mkHost (with_onscroll (remove_listener f) (window h)) (dom h)
      (RemoveEventListener "scroll" f :: calls h) (next_fn h)).

Definition window_addEventListener_resize (f : Fn) : M unit :=
  modify_host (fun h =>
    mkHost (with_onresize (add_listener f) (window h)) (dom h)
      (AddEventListener "resize" f :: calls h) (next_fn h)).

(** *** The helpers *)

(** A new function object: its identity is the next one not in use. *)
Definition fresh_fn (h : Host) : Fn * Host :=
  (next_fn h, mkHost (window h) (dom h) (calls h) (S (next_fn h))).

(** Modelled from the spec: [helpers.throttle] is not part of the source
    file.  It wraps a function in a new function object that forwards at
    most one call per interval to a fixed receiver; when it forwards is a
    matter of time and is not modelled, so the function, the interval and
    the receiver it is given do not appear.  The wrapper is a fresh function
    identity. *)
Definition helpers_throttle (h : Host) : Fn * Host := fresh_fn h.

(** Modelled from the spec: [helpers.debounce] is not part of the source
    file.  It wraps a function in a new function object that forwards the
    last call once calls have stopped for the given time; as for
    [helpers_throttle], the wrapper is a fresh function identity. *)
Definition helpers_debounce : M Fn :=
  fun s => let (f, h) := fresh_fn (host s) in (f, mkSt (self s) h).

(** ** The methods of [Parallax.prototype] *)

Definition getOffsetPercentage : M num :=
  scrollTop <- window_pageYOffset ;;
  height <- this_element_offsetHeight ;;
  windowHeight <- window_innerHeight ;;
  offsetTop <- this_element_offsetTop ;;
  let lowerBound := num_add offsetTop height in
  let upperBound := num_sub offsetTop windowHeight in
  let range := num_sub upperBound lowerBound in
  ret (num_div (num_sub scrollTop lowerBound) range).

Definition doMovement : M unit :=
  relativeOffset <- window_pageYOffset ;;
  offsetTop <- this_element_offsetTop ;;
  innerHeight <- window_innerHeight ;;
  relativeOffset <-
    (if num_ltb offsetTop innerHeight
     then ret (num_add relativeOffset offsetTop)
     else ret relativeOffset) ;;
  startOffset <- this_ This.startOffset ;;
  ratio <- getOffsetPercentage ;;
  distance <- this_ This.distance ;;
  let offset := num_sub startOffset (num_mul ratio distance) in
  set_backgroundPosition (Cat3 "center " offset "px").

Definition parallax : M unit :=
  absoluteOffset <- window_pageYOffset ;;
  start <- this_ This.start ;;
  stop <- this_ This.stop ;;
  if num_gtb absoluteOffset start && num_ltb absoluteOffset stop
  then doMovement
  else ret tt.

Definition register : M unit :=
  f <- this_ This.registerMe ;;
  window_addEventListener_scroll f.

Definition unregister : M unit :=
  f <- this_ This.registerMe ;;
  window_removeEventListener_scroll f.

(** The closure [handler] of [handleRegisters]; [self] there is [this]. *)
Definition handler : M unit :=
  innerWidth <- window_innerWidth ;;
  breakpoint <- this_ This.breakpoint ;;
  if num_gtb innerWidth breakpoint then register else unregister.

Definition handleRegisters : M unit :=
  handler ;;
  debounced <- helpers_debounce ;;
  window_addEventListener_resize debounced.

Definition init : M unit :=
  handleRegisters ;;
  startOffset <- this_ This.startOffset ;;
  set_backgroundPosition (Cat3 "center " startOffset "px") ;;
  cssTrans <- this_ This.cssTrans ;;
  (if cssTrans
   then
     throttling <- this_ This.throttling ;;
     set_transition
       (Cat3 "background-position: " (num_div (of_Z 1) throttling) "s")
   else ret tt) ;;
  parallax.

(** ** The constructor *)

Inductive completion (A : Type) : Type :=
| Normal (a : A)
| Throw (msg : string).
Arguments Normal {A} a.
Arguments Throw {A} msg.

(** [new Parallax(cfg)]: the configuration object as the constructor leaves
    it, the new object, and the host afterwards; or the exception thrown. *)
Definition Parallax (cfg : Cfg.t) (h : Host)
    : completion (Cfg.t * This.t * Host) :=
  match Cfg.element cfg with
  | None => Throw "parallax: at least element must be given"
  | Some node =>
      let cfg := Cfg.set_start (or_num (Cfg.start cfg) (of_Z 0)) cfg in
      let cfg := Cfg.set_stop (or_num (Cfg.stop cfg) (of_Z 0)) cfg in
      let elt := dom h node in
      let cfg :=
        Cfg.set_start
          (num_add
             (num_sub (of_Z (offsetTop elt)) (of_Z (innerHeight (window h))))
             (to_number (Cfg.start cfg)))
          cfg in
      let cfg :=
        Cfg.set_stop
          (num_add (of_Z (offsetTop elt)) (of_Z (offsetHeight elt))) cfg in
      let (registerMe, h) := helpers_throttle h in
      let this :=
        This.mk node
          (or_num (Cfg.startOffset cfg) (of_Z 0))
          (or_num (Cfg.distance cfg) (of_Z 200))
          (to_number (Cfg.start cfg))
          (to_number (Cfg.stop cfg))
          (or_num (Cfg.breakpoint cfg) (of_Z 1024))
          (or_num (Cfg.throttling cfg) (of_Z 15))
          (or_bool (Cfg.cssTrans cfg) false)
          registerMe in
      let s := exec init (mkSt this h) in
      Normal (cfg, self s, host s)
  end.

(** ** The bounds the constructor computes *)

(** [cfg.element.offsetTop - window.innerHeight + cfg.start], with
    [cfg.start] already defaulted to 0. *)
Definition start_bound (cfg : Cfg.t) (h : Host) (node : NodeRef) : num :=
  num_add
    (num_sub (of_Z (offsetTop (dom h node))) (of_Z (innerHeight (window h))))
    (or_num (Cfg.start cfg) (of_Z 0)).

(** [cfg.element.offsetTop + cfg.element.offsetHeight]. *)
Definition stop_bound (h : Host) (node : NodeRef) : num :=
  num_add (of_Z (offsetTop (dom h node))) (of_Z (offsetHeight (dom h node))).

(** The state that [new Parallax(cfg)] leaves, when it returns. *)
Definition constructed (c : completion (Cfg.t * This.t * Host)) : option St :=
  match c with
  | Normal (_, this, h) => Some (mkSt this h)
  | Throw _ => None
  end.

(** The text of the background position of the tracked element. *)
Definition backgroundPosition_text (s : St) : option string :=
  jsstr_text (backgroundPosition (style (this_element_of s))).

(** ** What can happen to an object after its construction *)

(** The methods of the prototype; [Mhandler] is the closure registered for
    resize events. *)
Inductive method : Type :=
| Minit
| Mparallax
| MdoMovement
| MgetOffsetPercentage
| Mregister
| Munregister
| MhandleRegisters
| Mhandler.

Definition call (m : method) : M unit :=
  match m with
  | Minit => init
  | Mparallax => parallax
  | MdoMovement => doMovement
  | MgetOffsetPercentage => getOffsetPercentage ;; ret tt
  | Mregister => register
  | Munregister => unregister
  | MhandleRegisters => handleRegisters
  | Mhandler => handler
  end.

(** One step in the life of the object: a method runs (called directly, or
    by the scroll or the resize listener), or the host changes under it (the
    user scrolls or resizes, the layout moves the element, listeners come
    and go). *)
Inductive step : St -> St -> Prop :=
| step_call (m : method) (s : St) : step s (exec (call m) s)
| step_host (s : St) (h : Host) : step s (mkSt (self s) h).

(** [frame s s']: from [s] to [s'] the receiver is the same object with the
    same fields, and the window and every node have the same geometry. *)
Record frame (s s' : St) : Prop := mkFrame {
  frame_self : self s' = self s;
  frame_innerHeight :
    innerHeight (window (host s')) = innerHeight (window (host s));
  frame_innerWidth :
    innerWidth (window (host s')) = innerWidth (window (host s));
  frame_pageYOffset :
    pageYOffset (window (host s')) = pageYOffset (window (host s));
  frame_offsetTop :
    forall r, offsetTop (dom (host s') r) = offsetTop (dom (host s) r);
  frame_offsetHeight :
    forall r, offsetHeight (dom (host s') r) = offsetHeight (dom (host s) r)
}.

(** A computation that keeps the frame from every state. *)
Definition frames {A : Type} (m : M A) : Prop :=
  forall s, frame s (snd (m s)).

(** ** [doMovement] without its first lines *)

(** [doMovement] with the lines that compute [relativeOffset] taken out,
    to compare with the method of the source. *)
Definition doMovement_without_relativeOffset : M unit :=
  startOffset <- this_ This.startOffset ;;
  ratio <- getOffsetPercentage ;;
  distance <- this_ This.distance ;;
  let offset := num_sub startOffset (num_mul ratio distance) in
  set_backgroundPosition (Cat3 "center " offset "px").

(** ** Example states *)

(** The geometry of the example of the specification: an element at
    [offsetTop = 1000] of height 400 in a window of height 800 and width
    1280, scrolled to [scrollTop]. *)
Definition example_element : Element :=
  mkElement 1000 400 (mkStyle (Lit "") (Lit "")).

Definition example_host (scrollTop : Qc) : Host :=
  mkHost (mkWindow 800 1280 scrollTop [] []) (fun _ => example_element)
    [] 0%nat.

(** An object on that element with the default options and the bounds 200
    and 1400. *)
Definition example_this (startOffset : num) : This.t :=
  This.mk 0%nat startOffset (of_Z 200) (of_Z 200) (of_Z 1400) (of_Z 1024)
    (of_Z 15) false 0%nat.

Definition example_state (startOffset : num) (scrollTop : Qc) : St :=
  mkSt (example_this startOffset) (example_host scrollTop).

(** A window and an element of height zero. *)
Definition flat_state (scrollTop : Qc) : St :=
  mkSt (example_this (of_Z 0))
    (mkHost (mkWindow 0 1280 scrollTop [] [])
       (fun _ => mkElement 1000 0 (mkStyle (Lit "") (Lit ""))) [] 0%nat).

(** A window of the given width in which the scroll listener of the object
    is registered. *)
Definition width_state (width : Z) : St :=
  mkSt (example_this (of_Z 0))
    (mkHost (mkWindow 800 width (Q2Qc (inject_Z 0)) [0%nat] [])
       (fun _ => example_element) [] 1%nat).

(** A host whose element sits exactly one window height down the page. *)
Definition fold_host : Host :=
  mkHost (mkWindow 800 1280 (Q2Qc (inject_Z 0)) [] [])
    (fun _ => mkElement 800 400 (mkStyle (Lit "") (Lit ""))) [] 0%nat.

(** Configurations: without element, with the element only, with a stop
    bias of 100, with a start bias of 50. *)
Definition empty_cfg : Cfg.t :=
  Cfg.mk None None None None None None None None.

Definition example_cfg : Cfg.t :=
  Cfg.mk (Some 0%nat) None None None None None None None.

Definition stop_bias_cfg : Cfg.t :=
  Cfg.mk (Some 0%nat) None None None (Some (of_Z 100)) None None None.

Definition start_bias_cfg : Cfg.t :=
  Cfg.mk (Some 0%nat) None None (Some (of_Z 50)) None None None None.

(** The example scenario of the specification: the example geometry,
    scrolled to 800, and a configuration with the element only. *)
Definition scenario : option St :=
  constructed (Parallax example_cfg (example_host (Q2Qc (inject_Z 800)))).

(** ** The condition of [parallax] and what a method may touch *)

(** The test of [parallax]: [absoluteOffset > this.start &&
    absoluteOffset < this.stop]. *)
Definition gate_open (s : St) : bool :=
  num_gtb (Fin (pageYOffset (window (host s)))) (This.start (self s))
  && num_ltb (Fin (pageYOffset (window (host s)))) (This.stop (self s)).

(** A computation that relates every state to the state it leaves. *)
Definition preserves (R : St -> St -> Prop) {A : Type} (m : M A) : Prop :=
  forall s, R s (snd (m s)).

(** [footprint s s']: besides the frame, the nodes other than the tracked
    one are as they were, the scroll listeners other than [registerMe] are
    the same, no resize listener is gone, and no function identity is given
    back. *)
Record footprint (s s' : St) : Prop := mkFootprint {
  fp_frame : frame s s';
  fp_nodes :
    forall r, r <> This.element (self s) -> dom (host s') r = dom (host s) r;
  fp_onscroll :
    forall f,
      f <> This.registerMe (self s) ->
      (In f (onscroll (window (host s')))
       <-> In f (onscroll (window (host s))));
  fp_onresize :
    forall f,
      In f (onresize (window (host s))) ->
      In f (onresize (window (host s')));
  fp_next_fn : (next_fn (host s) <= next_fn (host s'))%nat
}.

(** [style_only s s']: the receiver, the window with its listeners and the
    function identities are the same. *)
Record style_only (s s' : St) : Prop := mkStyleOnly {
  so_self : self s' = self s;
  so_window : window (host s') = window (host s);
  so_next_fn : next_fn (host s') = next_fn (host s)
}.

(** The string [doMovement] writes in state [s]. *)
Definition doMovement_value (s : St) : jsstr :=
  Cat3 "center "
    (num_sub (This.startOffset (self s))
       (num_mul (eval getOffsetPercentage s) (This.distance (self s))))
    "px".

(** The state [s] with the page scrolled to [y]. *)
Definition scrolled_to (y : Qc) (s : St) : St :=
  mkSt (self s)
    (mkHost
       (mkWindow (innerHeight (window (host s))) (innerWidth (window (host s)))
          y (onscroll (window (host s))) (onresize (window (host s))))
       (dom (host s)) (calls (host s)) (next_fn (host s))).

(** * Properties *)

(** ** Arithmetic of [num] *)

Lemma Qc_eq_bool_refl (x : Qc) : Qc_eq_bool x x = true.
Proof. unfold Qc_eq_bool. destruct (Qc_eq_dec x x); congruence. Qed.

Lemma Qc_eq_bool_neq (x y : Qc) : x <> y -> Qc_eq_bool x y = false.
Proof. unfold Qc_eq_bool. destruct (Qc_eq_dec x y); congruence. Qed.

Lemma Q2Qc_inject_Z_inj (a b : Z) :
  Q2Qc (inject_Z a) = Q2Qc (inject_Z b) -> a = b.
Proof.
  intros H. apply Q2Qc_eq_iff in H. now apply inject_Z_injective.
Qed.

Lemma Q2Qc_inject_Z_add (a b : Z) :
  (Q2Qc (inject_Z a) + Q2Qc (inject_Z b))%Qc = Q2Qc (inject_Z (a + b)).
Proof.
  apply Qc_is_canon. unfold Qcplus, Q2Qc; cbn [this].
  rewrite !Qred_correct. rewrite inject_Z_plus. reflexivity.
Qed.

Lemma Q2Qc_inject_Z_opp (a : Z) :
  (- Q2Qc (inject_Z a))%Qc = Q2Qc (inject_Z (- a)).
Proof.
  apply Qc_is_canon. unfold Qcopp, Q2Qc; cbn [this].
  rewrite !Qred_correct. rewrite inject_Z_opp. reflexivity.
Qed.

Lemma of_Z_add (a b : Z) : num_add (of_Z a) (of_Z b) = of_Z (a + b).
Proof. unfold of_Z; cbn [num_add]. now rewrite Q2Qc_inject_Z_add. Qed.

Lemma of_Z_sub (a b : Z) : num_sub (of_Z a) (of_Z b) = of_Z (a - b).
Proof.
  unfold of_Z, num_sub; cbn [num_add num_neg].
  now rewrite Q2Qc_inject_Z_opp, Q2Qc_inject_Z_add.
Qed.

Lemma num_sub_diag (q : Qc) : num_sub (Fin q) (Fin q) = of_Z 0.
Proof.
  unfold num_sub, of_Z; cbn [num_add num_neg]. f_equal.
  apply Qcplus_opp_r.
Qed.

Lemma num_div_finite (x y : Qc) :
  y <> 0%Qc -> num_div (Fin x) (Fin y) = Fin (x / y)%Qc.
Proof. intros H. cbn [num_div]. now rewrite Qc_eq_bool_neq. Qed.

Lemma num_div_zero (x : Qc) :
  num_div (Fin x) (of_Z 0) = inf_of_sign (x ?= 0)%Qc.
Proof. unfold of_Z. cbn [num_div]. now rewrite Qc_eq_bool_refl. Qed.

Lemma num_div_0_l (y : Qc) :
  y <> 0%Qc -> num_div (of_Z 0) (Fin y) = of_Z 0.
Proof.
  intros H. unfold of_Z. rewrite num_div_finite by assumption.
  f_equal. unfold Qcdiv. apply Qcmult_0_l.
Qed.

Lemma num_div_diag (y : Qc) :
  y <> 0%Qc -> num_div (Fin y) (Fin y) = of_Z 1.
Proof.
  intros H. rewrite num_div_finite by assumption.
  unfold of_Z. f_equal. unfold Qcdiv. now apply Qcmult_inv_r.
Qed.

Lemma Q2Qc_inject_Z_neq0 (z : Z) : z <> 0 -> Q2Qc (inject_Z z) <> 0%Qc.
Proof. intros H E. apply H. now apply Q2Qc_inject_Z_inj. Qed.

Lemma num_leb_ltb (a b : num) : num_leb a b = true -> num_ltb b a = false.
Proof.
  destruct a, b; cbn [num_leb num_ltb]; try discriminate; trivial;
    intros H; now apply negb_true_iff in H.
Qed.

(** A number plus a finite non-zero number is another number, as long as
    it is finite itself. *)
Lemma num_add_finite_neq (d : Qc) (a : num) :
  d <> 0%Qc -> is_finite a -> num_add (Fin d) a <> a.
Proof.
  intros Hd Ha E. destruct a as [q| | |]; cbn [is_finite num_add] in *;
    try contradiction.
  injection E as E. apply Hd.
  transitivity (d + q - q)%Qc; [ring|].
  rewrite E. ring.
Qed.

Lemma Fin_eq (a b : Qc) : Qeq_bool a b = true -> Fin a = Fin b.
Proof. intros H. f_equal. apply Qc_is_canon. now apply Qeq_bool_iff. Qed.

Lemma Fin_neq (a b : Qc) : Qeq_bool a b = false -> Fin a <> Fin b.
Proof.
  intros H E. injection E as E. subst b.
  assert (T : Qeq_bool a a = true) by (apply Qeq_bool_iff; reflexivity).
  congruence.
Qed.

(** ** Running the monad *)

(** Unfolds the monadic plumbing and the reads, leaving the arithmetic. *)
Ltac run :=
  cbv beta iota zeta delta
    [bind ret gets modify_host this_ eval exec fst snd
     window_pageYOffset window_innerHeight window_innerWidth
     this_element_offsetTop this_element_offsetHeight].

Lemma update_node_same (r : NodeRef) (f : Element -> Element)
    (d : NodeRef -> Element) :
  update_node r f d r = f (d r).
Proof. unfold update_node. now rewrite Nat.eqb_refl. Qed.

Lemma getOffsetPercentage_pure (s : St) : exec getOffsetPercentage s = s.
Proof. reflexivity. Qed.

(** The value of [range] in [getOffsetPercentage]. *)
Lemma range_value (ot h wh : Z) :
  num_sub (num_sub (of_Z ot) (of_Z wh)) (num_add (of_Z ot) (of_Z h))
  = of_Z (- (h + wh)).
Proof.
  rewrite of_Z_add, !of_Z_sub. f_equal. lia.
Qed.

(** ** C2: the value of [getOffsetPercentage] *)

(** C2.  For every scroll position and offset, and positive height and
    window height, [getOffsetPercentage] returns
    [(scrollTop - (offsetTop + height)) /
     ((offsetTop - windowHeight) - (offsetTop + height))] and leaves the
    state alone; the value is 0 when [scrollTop = offsetTop + height] and 1
    when [scrollTop = offsetTop - windowHeight]. *)
Theorem getOffsetPercentage_value (s : St) :
  let scrollTop := Fin (pageYOffset (window (host s))) in
  let offsetTop := of_Z (offsetTop (this_element_of s)) in
  let height := of_Z (offsetHeight (this_element_of s)) in
  let windowHeight := of_Z (innerHeight (window (host s))) in
  0 < offsetHeight (this_element_of s) ->
  0 < innerHeight (window (host s)) ->
  getOffsetPercentage s =
    (num_div (num_sub scrollTop (num_add offsetTop height))
       (num_sub (num_sub offsetTop windowHeight) (num_add offsetTop height)),
     s)
  /\ (scrollTop = num_add offsetTop height ->
      eval getOffsetPercentage s = of_Z 0)
  /\ (scrollTop = num_sub offsetTop windowHeight ->
      eval getOffsetPercentage s = of_Z 1).
Proof.
  intros scrollTop ot height windowHeight Hh Hw.
  split; [reflexivity|].
  assert (Hr : Q2Qc (inject_Z (- (offsetHeight (this_element_of s)
                                  + innerHeight (window (host s))))) <> 0%Qc)
    by (apply Q2Qc_inject_Z_neq0; lia).
  unfold getOffsetPercentage. run.
  fold scrollTop ot height windowHeight.
  split; intros E; rewrite E.
  - unfold ot, height, windowHeight. rewrite range_value, of_Z_add.
    unfold of_Z at 1 2. rewrite num_sub_diag.
    unfold of_Z at 2. now apply num_div_0_l.
  - unfold ot, height, windowHeight. rewrite range_value.
    unfold of_Z at 1. now apply num_div_diag.
Qed.

(** The element's lower edge at the top of the window: ratio 0. *)
Lemma getOffsetPercentage_value_witness :
  eval getOffsetPercentage
    (example_state (of_Z 0) (Q2Qc (inject_Z 1000) + Q2Qc (inject_Z 400))%Qc)
  = of_Z 0.
Proof.
  apply (getOffsetPercentage_value
           (example_state (of_Z 0)
              (Q2Qc (inject_Z 1000) + Q2Qc (inject_Z 400))%Qc));
    reflexivity.
Defined.

(** ** C6: the divisor of [getOffsetPercentage] *)

(** C6.  [getOffsetPercentage] divides by [range] whatever its value.  The
    divisor is [-(offsetHeight + windowHeight)]: when that sum is not zero
    the ratio is a finite number; when the height of the element and of the
    window are both zero the divisor is zero and the ratio is no finite
    number: NaN at [scrollTop = offsetTop], an infinity elsewhere. *)
Theorem getOffsetPercentage_divisor (s : St) :
  let scrollTop := pageYOffset (window (host s)) in
  let offsetTop := offsetTop (this_element_of s) in
  let height := offsetHeight (this_element_of s) in
  let windowHeight := innerHeight (window (host s)) in
  eval getOffsetPercentage s =
    num_div (num_sub (Fin scrollTop) (of_Z (offsetTop + height)))
      (of_Z (- (height + windowHeight)))
  /\ (height + windowHeight <> 0 -> is_finite (eval getOffsetPercentage s))
  /\ (height = 0 -> windowHeight = 0 ->
      of_Z (- (height + windowHeight)) = of_Z 0
      /\ eval getOffsetPercentage s =
           inf_of_sign (scrollTop - Q2Qc (inject_Z offsetTop) ?= 0)%Qc
      /\ ~ is_finite (eval getOffsetPercentage s)).
Proof.
  intros scrollTop ot height windowHeight.
  assert (E : eval getOffsetPercentage s =
    num_div (num_sub (Fin scrollTop) (of_Z (ot + height)))
      (of_Z (- (height + windowHeight)))).
  { unfold getOffsetPercentage. run.
    fold scrollTop ot height windowHeight.
    now rewrite range_value, of_Z_add. }
  split; [exact E|]. rewrite E. split.
  - intros Hr. unfold of_Z, num_sub. cbn [num_neg num_add].
    rewrite num_div_finite; [exact I|].
    apply Q2Qc_inject_Z_neq0. lia.
  - intros Hh Hw. rewrite Hh, Hw, !Z.add_0_r. change (- 0) with 0.
    split; [reflexivity|].
    unfold of_Z at 1 3, num_sub. cbn [num_neg num_add].
    rewrite num_div_zero.
    split; [reflexivity|].
    match goal with
    | |- context [inf_of_sign ?c] => destruct c
    end; exact (fun F => F).
Qed.

(** On the example geometry the ratio is finite; with a window and an
    element of height zero it is NaN at the element, an infinity away from
    it. *)
Lemma getOffsetPercentage_divisor_witness :
  is_finite (eval getOffsetPercentage
               (example_state (of_Z 0) (Q2Qc (inject_Z 800))))
  /\ eval getOffsetPercentage (flat_state (Q2Qc (inject_Z 1000))) = NaN
  /\ eval getOffsetPercentage (flat_state (Q2Qc (inject_Z 1200))) = PInf
  /\ eval getOffsetPercentage (flat_state (Q2Qc (inject_Z 300))) = NInf.
Proof.
  split; [|split; [|split]].
  - apply (getOffsetPercentage_divisor
             (example_state (of_Z 0) (Q2Qc (inject_Z 800)))).
    discriminate.
  - apply (getOffsetPercentage_divisor (flat_state (Q2Qc (inject_Z 1000))));
      reflexivity.
  - apply (getOffsetPercentage_divisor (flat_state (Q2Qc (inject_Z 1200))));
      reflexivity.
  - apply (getOffsetPercentage_divisor (flat_state (Q2Qc (inject_Z 300))));
      reflexivity.
Defined.

(** ** Writes to the style *)

Lemma set_backgroundPosition_written (v : jsstr) (s : St) :
  backgroundPosition
    (style (this_element_of (exec (set_backgroundPosition v) s))) = v.
Proof.
  unfold set_backgroundPosition, this_element_of. run.
  cbn [self host dom]. now rewrite update_node_same.
Qed.

Lemma set_backgroundPosition_calls (v : jsstr) (s : St) :
  calls (host (exec (set_backgroundPosition v) s))
  = SetBackgroundPosition (This.element (self s)) v :: calls (host s).
Proof. reflexivity. Qed.

(** [doMovement] comes down to one write of the background position. *)
Lemma doMovement_run (s : St) :
  doMovement s =
    (tt,
     exec
       (set_backgroundPosition
          (Cat3 "center "
             (num_sub (This.startOffset (self s))
                (num_mul (eval getOffsetPercentage s)
                   (This.distance (self s))))
             "px"))
       s).
Proof.
  unfold doMovement. run.
  destruct (num_ltb _ _); reflexivity.
Qed.

Lemma doMovement_exec (s : St) :
  exec doMovement s =
    exec
      (set_backgroundPosition
         (Cat3 "center "
            (num_sub (This.startOffset (self s))
               (num_mul (eval getOffsetPercentage s)
                  (This.distance (self s))))
            "px"))
      s.
Proof. unfold exec at 1. now rewrite doMovement_run. Qed.

(** ** C3: the offset written by [doMovement] *)

(** C3, as the code has it.  [doMovement] writes ["center " + offset + "px"]
    with [offset = startOffset - ratio * distance], [ratio] being the value
    of [getOffsetPercentage]; with [startOffset = -50], [distance = 200] and
    [ratio = 0.5] the offset is -150.  In the example scenario (offsetTop
    1000, offsetHeight 400, innerHeight 800, scrollTop 800, default
    startOffset and distance) the bounds are 200 and 1400, the ratio is 0.5
    and the style written is "center -100px". *)
Theorem doMovement_offset_linear (s : St) :
  let ratio := eval getOffsetPercentage s in
  let offset :=
    num_sub (This.startOffset (self s))
      (num_mul ratio (This.distance (self s))) in
  backgroundPosition (style (this_element_of (exec doMovement s)))
    = Cat3 "center " offset "px"
  /\ (This.startOffset (self s) = of_Z (-50) ->
      This.distance (self s) = of_Z 200 ->
      ratio = Fin (Q2Qc (1 # 2)) ->
      offset = of_Z (-150))
  /\ exists s0,
       scenario = Some s0
       /\ This.start (self s0) = of_Z 200
       /\ This.stop (self s0) = of_Z 1400
       /\ eval getOffsetPercentage s0 = Fin (Q2Qc (1 # 2))
       /\ backgroundPosition_text s0 = Some "center -100px".
Proof.
  intros ratio offset. split; [|split].
  - rewrite doMovement_exec. apply set_backgroundPosition_written.
  - unfold offset. intros H1 H2 H3. rewrite H1, H2, H3.
    apply Fin_eq; reflexivity.
  - eexists. split; [reflexivity|].
    split; [apply Fin_eq; reflexivity|].
    split; [apply Fin_eq; reflexivity|].
    split; [apply Fin_eq; reflexivity|reflexivity].
Qed.

(** A state with [startOffset = -50], [distance = 200] and ratio 0.5. *)
Lemma doMovement_offset_linear_witness :
  num_sub (of_Z (-50)) (num_mul (Fin (Q2Qc (1 # 2))) (of_Z 200)) = of_Z (-150)
  /\ backgroundPosition_text
       (exec doMovement (example_state (of_Z (-50)) (Q2Qc (inject_Z 800))))
     = Some "center -150px".
Proof.
  pose proof (doMovement_offset_linear
                (example_state (of_Z (-50)) (Q2Qc (inject_Z 800)))) as H.
  cbv zeta in H. destruct H as (Hw & He & _).
  assert (Hr : eval getOffsetPercentage
                 (example_state (of_Z (-50)) (Q2Qc (inject_Z 800)))
               = Fin (Q2Qc (1 # 2))) by (apply Fin_eq; reflexivity).
  specialize (He eq_refl eq_refl Hr).
  split.
  - rewrite <- Hr. exact He.
  - unfold backgroundPosition_text. rewrite Hw.
    cbn [This.startOffset This.distance self example_state example_this].
    rewrite Hr. reflexivity.
Defined.

(** The claim as stated fails in the example scenario: there the ratio is
    not 0.75 and the style written is not "center -150px". *)
Lemma doMovement_scenario_counterexample :
  exists s0,
    scenario = Some s0
    /\ eval getOffsetPercentage s0 <> Fin (Q2Qc (3 # 4))
    /\ backgroundPosition_text s0 <> Some "center -150px".
Proof.
  eexists. split; [reflexivity|]. split.
  - apply Fin_neq; reflexivity.
  - intros E.
    assert (T : Some "center -100px" = Some "center -150px")
      by (rewrite <- E; reflexivity).
    discriminate T.
Qed.

(** ** C9: [relativeOffset] is dead code *)

(** C9.  The computation of [relativeOffset] in [doMovement] has no effect:
    in every state, whichever branch its conditional takes, [doMovement]
    does what it does without those lines, and the offset it writes is
    [startOffset - getOffsetPercentage() * distance]. *)
Theorem doMovement_relativeOffset_dead (s : St) :
  doMovement s = doMovement_without_relativeOffset s
  /\ backgroundPosition (style (this_element_of (exec doMovement s)))
     = Cat3 "center "
         (num_sub (This.startOffset (self s))
            (num_mul (eval getOffsetPercentage s) (This.distance (self s))))
         "px".
Proof.
  split.
  - rewrite doMovement_run. reflexivity.
  - rewrite doMovement_exec. apply set_backgroundPosition_written.
Qed.

(** ** C4: the gate of [parallax] *)

Lemma parallax_run (s : St) :
  parallax s =
    if num_gtb (Fin (pageYOffset (window (host s)))) (This.start (self s))
       && num_ltb (Fin (pageYOffset (window (host s)))) (This.stop (self s))
    then doMovement s
    else (tt, s).
Proof.
  unfold parallax. run. destruct (_ && _); reflexivity.
Qed.

(** A call of [doMovement] shows in the calls made to the host. *)
Lemma doMovement_calls (s : St) :
  exists v,
    calls (host (exec doMovement s))
    = SetBackgroundPosition (This.element (self s)) v :: calls (host s).
Proof.
  eexists. rewrite doMovement_exec. apply set_backgroundPosition_calls.
Qed.

Lemma doMovement_not_skip (s : St) : doMovement s <> (tt, s).
Proof.
  intros E. destruct (doMovement_calls s) as [v Hv].
  unfold exec in Hv. rewrite E in Hv. cbn [snd] in Hv.
  apply (f_equal (@length HostCall)) in Hv. cbn [length] in Hv. lia.
Qed.

(** C4.  With [s] the scroll position: when [start < s < stop], [parallax]
    is one call of [doMovement]; when [s <= start] or [s >= stop] it does
    nothing, and the background position stays as it was.  [parallax] runs
    [doMovement] in no other case. *)
Theorem parallax_gate (s : St) :
  let y := Fin (pageYOffset (window (host s))) in
  let start := This.start (self s) in
  let stop := This.stop (self s) in
  (num_lt start y /\ num_lt y stop -> parallax s = doMovement s)
  /\ (num_le y start \/ num_le stop y ->
      parallax s = (tt, s)
      /\ backgroundPosition (style (this_element_of (exec parallax s)))
         = backgroundPosition (style (this_element_of s)))
  /\ (parallax s = doMovement s <-> num_lt start y /\ num_lt y stop)
  /\ (exists v,
        calls (host (exec doMovement s))
        = SetBackgroundPosition (This.element (self s)) v :: calls (host s)).
Proof.
  intros y start stop.
  assert (Hin : num_lt start y /\ num_lt y stop -> parallax s = doMovement s).
  { intros [H1 H2]. rewrite parallax_run. fold y start stop.
    unfold num_gtb. unfold num_lt in H1, H2. now rewrite H1, H2. }
  assert (Hout : num_ltb start y && num_ltb y stop = false ->
                 parallax s = (tt, s)).
  { intros H. rewrite parallax_run. fold y start stop.
    unfold num_gtb. now rewrite H. }
  split; [exact Hin|]. split; [|split].
  - intros H.
    assert (E : parallax s = (tt, s)).
    { apply Hout. destruct H as [H|H]; apply num_leb_ltb in H; rewrite H.
      - reflexivity.
      - apply andb_false_r. }
    split; [exact E|]. unfold exec. now rewrite E.
  - split; [|exact Hin]. intros E.
    destruct (num_ltb start y && num_ltb y stop) eqn:B.
    + apply andb_true_iff in B. exact B.
    + rewrite (Hout eq_refl) in E. symmetry in E.
      now apply doMovement_not_skip in E.
  - apply doMovement_calls.
Qed.

(** Inside the bounds [parallax] moves; on either bound it does nothing. *)
Lemma parallax_gate_witness :
  parallax (example_state (of_Z 0) (Q2Qc (inject_Z 800)))
    = doMovement (example_state (of_Z 0) (Q2Qc (inject_Z 800)))
  /\ parallax (example_state (of_Z 0) (Q2Qc (inject_Z 200)))
     = (tt, example_state (of_Z 0) (Q2Qc (inject_Z 200)))
  /\ parallax (example_state (of_Z 0) (Q2Qc (inject_Z 1400)))
     = (tt, example_state (of_Z 0) (Q2Qc (inject_Z 1400))).
Proof.
  split; [|split].
  - apply (parallax_gate (example_state (of_Z 0) (Q2Qc (inject_Z 800)))).
    split; reflexivity.
  - apply (parallax_gate (example_state (of_Z 0) (Q2Qc (inject_Z 200)))).
    left; reflexivity.
  - apply (parallax_gate (example_state (of_Z 0) (Q2Qc (inject_Z 1400)))).
    right; reflexivity.
Defined.

(** ** C8: registration at the breakpoint *)

Lemma add_listener_In (f : Fn) (l : list Fn) : In f (add_listener f l).
Proof.
  unfold add_listener. destruct (in_dec Nat.eq_dec f l) as [H|H].
  - exact H.
  - apply in_or_app. right. now left.
Qed.

Lemma remove_listener_not_In (f : Fn) (l : list Fn) :
  ~ In f (remove_listener f l).
Proof. apply remove_In. Qed.

Lemma handler_run (s : St) :
  handler s =
    if num_gtb (of_Z (innerWidth (window (host s)))) (This.breakpoint (self s))
    then register s
    else unregister s.
Proof.
  unfold handler. run. destruct (num_gtb _ _); reflexivity.
Qed.

(** C8.  The handler run at construction and on resize registers the scroll
    listener when the width of the window is greater than the breakpoint and
    unregisters it when the width is less than or equal to it; after the
    handler, and after [handleRegisters] which runs it first, the listener
    is registered exactly in the first case. *)
Theorem handler_breakpoint (s : St) :
  let width := of_Z (innerWidth (window (host s))) in
  let breakpoint := This.breakpoint (self s) in
  let registered (s' : St) :=
    In (This.registerMe (self s)) (onscroll (window (host s'))) in
  (num_lt breakpoint width ->
   handler s = register s /\ registered (exec handler s))
  /\ (num_le width breakpoint ->
      handler s = unregister s /\ ~ registered (exec handler s))
  /\ (registered (exec handler s) <-> num_lt breakpoint width)
  /\ (registered (exec handleRegisters s) <-> num_lt breakpoint width).
Proof.
  intros width breakpoint registered.
  assert (Hreg : registered (exec register s))
    by apply add_listener_In.
  assert (Hunreg : ~ registered (exec unregister s))
    by apply remove_listener_not_In.
  assert (Hgt : num_lt breakpoint width -> handler s = register s).
  { intros H. rewrite handler_run. fold width breakpoint.
    unfold num_gtb. now rewrite H. }
  assert (Hle : num_ltb breakpoint width = false ->
                handler s = unregister s).
  { intros H. rewrite handler_run. fold width breakpoint.
    unfold num_gtb. now rewrite H. }
  assert (Hiff : registered (exec handler s) <-> num_lt breakpoint width).
  { split.
    - intros H. unfold num_lt.
      destruct (num_ltb breakpoint width); [reflexivity|].
      unfold exec in H. rewrite (Hle eq_refl) in H. now apply Hunreg in H.
    - intros H. unfold exec. now rewrite (Hgt H). }
  split; [|split; [|split; [exact Hiff|]]].
  - intros H. split; [now apply Hgt|]. now apply Hiff.
  - intros H. apply num_leb_ltb in H.
    split; [now apply Hle|]. unfold exec. now rewrite (Hle H).
  - assert (Hinit : onscroll (window (host (exec handleRegisters s)))
                    = onscroll (window (host (exec handler s)))).
    { unfold handleRegisters, exec, bind. now destruct (handler s). }
    unfold registered. rewrite Hinit. exact Hiff.
Qed.

(** Width 1280 over a breakpoint of 1024 keeps the listener registered;
    width 1024 and width 800 unregister it. *)
Lemma handler_breakpoint_witness :
  onscroll (window (host (exec handler (width_state 1280)))) = [0%nat]
  /\ onscroll (window (host (exec handler (width_state 1024)))) = []
  /\ onscroll (window (host (exec handler (width_state 800)))) = [].
Proof.
  split; [|split].
  - destruct (handler_breakpoint (width_state 1280)) as ((E & _) & _).
    + reflexivity.
    + unfold exec. rewrite E. reflexivity.
  - destruct (handler_breakpoint (width_state 1024)) as (_ & (E & _) & _).
    + reflexivity.
    + unfold exec. rewrite E. reflexivity.
  - destruct (handler_breakpoint (width_state 800)) as (_ & (E & _) & _).
    + reflexivity.
    + unfold exec. rewrite E. reflexivity.
Defined.

(** ** What the methods leave alone *)

Lemma frame_refl (s : St) : frame s s.
Proof. now constructor. Qed.

Lemma frame_trans (s1 s2 s3 : St) : frame s1 s2 -> frame s2 s3 -> frame s1 s3.
Proof.
  intros [A1 B1 C1 D1 E1 F1] [A2 B2 C2 D2 E2 F2].
  constructor; congruence.
Qed.

Lemma frames_ret {A : Type} (a : A) : frames (ret a).
Proof. intros s. apply frame_refl. Qed.

Lemma frames_gets {A : Type} (f : St -> A) : frames (gets f).
Proof. intros s. apply frame_refl. Qed.

Lemma frames_bind {A B : Type} (m : M A) (k : A -> M B) :
  frames m -> (forall a, frames (k a)) -> frames (bind m k).
Proof.
  intros Hm Hk s. unfold bind.
  specialize (Hm s). destruct (m s) as [a s1]. cbn [snd] in Hm.
  apply (frame_trans _ _ _ Hm), Hk.
Qed.

Lemma frames_if {A : Type} (b : bool) (m1 m2 : M A) :
  frames m1 -> frames m2 -> frames (if b then m1 else m2).
Proof. now destruct b. Qed.

Lemma update_node_offsetTop (r : NodeRef) (f : Element -> Element)
    (d : NodeRef -> Element) (r' : NodeRef) :
  (forall e, offsetTop (f e) = offsetTop e) ->
  offsetTop (update_node r f d r') = offsetTop (d r').
Proof. intros H. unfold update_node. now destruct (Nat.eqb r' r). Qed.

Lemma update_node_offsetHeight (r : NodeRef) (f : Element -> Element)
    (d : NodeRef -> Element) (r' : NodeRef) :
  (forall e, offsetHeight (f e) = offsetHeight e) ->
  offsetHeight (update_node r f d r') = offsetHeight (d r').
Proof. intros H. unfold update_node. now destruct (Nat.eqb r' r). Qed.

Lemma frames_set_backgroundPosition (v : jsstr) :
  frames (set_backgroundPosition v).
Proof.
  intros s. constructor; try reflexivity; intros r; cbn.
  - now apply update_node_offsetTop.
  - now apply update_node_offsetHeight.
Qed.

Lemma frames_set_transition (v : jsstr) : frames (set_transition v).
Proof.
  intros s. constructor; try reflexivity; intros r; cbn;
    destruct (transition_discards v); trivial.
  - now apply update_node_offsetTop.
  - now apply update_node_offsetHeight.
Qed.

Lemma frames_addEventListener_scroll (f : Fn) :
  frames (window_addEventListener_scroll f).
Proof. intros s. now constructor. Qed.

Lemma frames_removeEventListener_scroll (f : Fn) :
  frames (window_removeEventListener_scroll f).
Proof. intros s. now constructor. Qed.

Lemma frames_addEventListener_resize (f : Fn) :
  frames (window_addEventListener_resize f).
Proof. intros s. now constructor. Qed.

Lemma frames_helpers_debounce : frames helpers_debounce.
Proof. intros s. now constructor. Qed.

Create HintDb frames.
#[local] Hint Resolve frames_ret frames_gets frames_set_backgroundPosition
  frames_set_transition frames_addEventListener_scroll
  frames_removeEventListener_scroll frames_addEventListener_resize
  frames_helpers_debounce : frames.

(** Goes through a method bind by bind. *)
Ltac frames_step :=
  first
    [ solve [auto with frames]
    | apply frames_if
    | apply frames_bind; [|intros ?] ].

Ltac frames_method :=
  cbv beta zeta delta
    [this_ window_pageYOffset window_innerHeight window_innerWidth
     this_element_offsetTop this_element_offsetHeight];
  repeat frames_step.

Lemma frames_getOffsetPercentage : frames getOffsetPercentage.
Proof. intros s. apply frame_refl. Qed.
#[local] Hint Resolve frames_getOffsetPercentage : frames.

Lemma frames_doMovement : frames doMovement.
Proof. unfold doMovement. frames_method. Qed.
#[local] Hint Resolve frames_doMovement : frames.

Lemma frames_parallax : frames parallax.
Proof. unfold parallax. frames_method. Qed.
#[local] Hint Resolve frames_parallax : frames.

Lemma frames_register : frames register.
Proof. unfold register. frames_method. Qed.

Lemma frames_unregister : frames unregister.
Proof. unfold unregister. frames_method. Qed.
#[local] Hint Resolve frames_register frames_unregister : frames.

Lemma frames_handler : frames handler.
Proof. unfold handler. frames_method. Qed.
#[local] Hint Resolve frames_handler : frames.

Lemma frames_handleRegisters : frames handleRegisters.
Proof. unfold handleRegisters. frames_method. Qed.
#[local] Hint Resolve frames_handleRegisters : frames.

Lemma frames_init : frames init.
Proof. unfold init. frames_method. Qed.
#[local] Hint Resolve frames_init : frames.

(** ** The constructor *)

Lemma or_num_not_NaN (v : option num) (z : Z) : or_num v (of_Z z) <> NaN.
Proof.
  destruct v as [[q| | |]|]; cbn [or_num truthy]; try discriminate.
  destruct (negb _); discriminate.
Qed.

Lemma or_num_Some_id (a : num) : a <> NaN -> or_num (Some a) (of_Z 0) = a.
Proof.
  intros H. destruct a as [q| | |]; cbn [or_num truthy]; try reflexivity.
  - destruct (Qc_eq_bool q 0) eqn:E; cbn [negb]; [|reflexivity].
    apply Qc_eq_bool_correct in E. now subst q.
  - contradiction.
Qed.

Lemma num_add_Fin_not_NaN (q : Qc) (a : num) :
  a <> NaN -> num_add (Fin q) a <> NaN.
Proof. destruct a; cbn [num_add]; intros H; congruence. Qed.

(** What [new Parallax(cfg)] returns when it returns: the configuration
    with its two bounds overwritten, the fields of the new object, and a
    host with the geometry it had. *)
Lemma Parallax_inv (cfg : Cfg.t) (h : Host) (cfg' : Cfg.t) (this : This.t)
    (h' : Host) :
  Parallax cfg h = Normal (cfg', this, h') ->
  exists node,
    Cfg.element cfg = Some node
    /\ cfg' =
         Cfg.mk (Some node) (Cfg.startOffset cfg) (Cfg.distance cfg)
           (Some (start_bound cfg h node)) (Some (stop_bound h node))
           (Cfg.breakpoint cfg) (Cfg.throttling cfg) (Cfg.cssTrans cfg)
    /\ this =
         This.mk node
           (or_num (Cfg.startOffset cfg) (of_Z 0))
           (or_num (Cfg.distance cfg) (of_Z 200))
           (start_bound cfg h node) (stop_bound h node)
           (or_num (Cfg.breakpoint cfg) (of_Z 1024))
           (or_num (Cfg.throttling cfg) (of_Z 15))
           (or_bool (Cfg.cssTrans cfg) false)
           (next_fn h)
    /\ innerHeight (window h') = innerHeight (window h)
    /\ (forall r, offsetTop (dom h' r) = offsetTop (dom h r))
    /\ (forall r, offsetHeight (dom h' r) = offsetHeight (dom h r)).
Proof.
  unfold Parallax. destruct (Cfg.element cfg) as [node|] eqn:El;
    [|discriminate].
  cbv zeta. unfold helpers_throttle, fresh_fn.
  cbn [Cfg.set_start Cfg.set_stop Cfg.element Cfg.startOffset Cfg.distance
       Cfg.start Cfg.stop Cfg.breakpoint Cfg.throttling Cfg.cssTrans
       to_number].
  fold (start_bound cfg h node) (stop_bound h node).
  match goal with
  | |- Normal (_, self (exec init ?s), _) = _ -> _ => set (s0 := s)
  end.
  destruct (frames_init s0) as [Fs Fh _ _ Ft Fo].
  fold (exec init s0) in Fs, Fh, Ft, Fo.
  intros E. injection E as <- <- <-. rewrite Fs. exists node.
  repeat split; try assumption.
  unfold Cfg.set_start, Cfg.set_stop.
  cbn [Cfg.element Cfg.startOffset Cfg.distance Cfg.start Cfg.stop
       Cfg.breakpoint Cfg.throttling Cfg.cssTrans].
  now rewrite El.
Qed.

Lemma Parallax_Normal (cfg : Cfg.t) (h : Host) (node : NodeRef) :
  Cfg.element cfg = Some node ->
  exists cfg' this h', Parallax cfg h = Normal (cfg', this, h').
Proof.
  intros El. unfold Parallax. rewrite El. cbv zeta.
  unfold helpers_throttle, fresh_fn. now eexists _, _, _.
Qed.

(** ** C5: the bounds are computed once *)

Lemma frames_call (m : method) : frames (call m).
Proof. destruct m; unfold call; frames_method. Qed.

Lemma step_self (s s' : St) : step s s' -> self s' = self s.
Proof.
  intros [m s0|s0 h].
  - apply (frames_call m s0).
  - reflexivity.
Qed.

Lemma steps_self (s s' : St) :
  clos_refl_trans St step s s' -> self s' = self s.
Proof.
  induction 1 as [s s' H|s|s1 s2 s3 _ IH1 _ IH2].
  - now apply step_self.
  - reflexivity.
  - congruence.
Qed.

(** C5.  After construction the stored [stop] is
    [element.offsetTop + element.offsetHeight] as they were when the
    constructor ran, and nothing that happens afterwards ([init],
    [parallax], [doMovement], [getOffsetPercentage], [register],
    [unregister], [handleRegisters], the resize handler, any change of the
    host) modifies the stored [start] or [stop]. *)
Theorem bounds_fixed_after_construction (cfg : Cfg.t) (h : Host)
    (cfg' : Cfg.t) (this : This.t) (h' : Host) :
  Parallax cfg h = Normal (cfg', this, h') ->
  Cfg.element cfg = Some (This.element this)
  /\ This.stop this =
       of_Z (offsetTop (dom h (This.element this))
             + offsetHeight (dom h (This.element this)))
  /\ forall s,
       clos_refl_trans St step (mkSt this h') s ->
       This.start (self s) = This.start this
       /\ This.stop (self s) = This.stop this.
Proof.
  intros H. apply Parallax_inv in H.
  destruct H as (node & El & _ & -> & _). cbn [This.element This.stop].
  split; [exact El|]. split.
  - unfold stop_bound. apply of_Z_add.
  - intros s Hs. apply steps_self in Hs. cbn [self] in Hs.
    now rewrite Hs.
Qed.

(** The example: [stop] is 1400, also after the element has moved and the
    resize handler and [parallax] have run. *)
Lemma bounds_fixed_after_construction_witness :
  exists cfg' this h',
    Parallax example_cfg (example_host (Q2Qc (inject_Z 800)))
      = Normal (cfg', this, h')
    /\ This.stop this = of_Z (1000 + 400)
    /\ This.stop
         (self
            (exec (call Mparallax)
               (exec (call Mhandler)
                  (mkSt this
                     (mkHost (window h')
                        (fun _ => mkElement 5000 10 (style example_element))
                        (calls h') (next_fn h'))))))
       = This.stop this.
Proof.
  eexists _, _, _. split; [reflexivity|].
  match goal with
  | |- ?stop_this = _ /\ This.stop (self ?after) = _ =>
      assert (R : clos_refl_trans St step
                    (mkSt (self after) (host (exec init
                       (mkSt (self after)
                          (snd (helpers_throttle
                             (example_host (Q2Qc (inject_Z 800)))))))))
                    after)
  end.
  { eapply rt_trans; [|apply rt_step, step_call].
    eapply rt_trans; [|apply rt_step, step_call].
    apply rt_step.
    apply (step_host
             (mkSt _ (host (exec init
                (mkSt _ (snd (helpers_throttle
                   (example_host (Q2Qc (inject_Z 800))))))))) ). }
  destruct (bounds_fixed_after_construction example_cfg
              (example_host (Q2Qc (inject_Z 800))) _ _ _ eq_refl)
    as (_ & Hstop & Hsteps).
  split; [exact Hstop|].
  apply (Hsteps _ R).
Defined.

(** ** C7: the one failure of the constructor, and the defaults *)

(** C7.  The constructor throws if and only if the configuration has no
    element.  With an element it returns, and each option left out gets its
    default: startOffset 0, distance 200, breakpoint 1024, throttling 15,
    cssTrans false. *)
Theorem Parallax_throws_iff_no_element (cfg : Cfg.t) (h : Host) :
  (Cfg.element cfg = None <-> exists msg, Parallax cfg h = Throw msg)
  /\ (Cfg.element cfg = None ->
      Parallax cfg h = Throw "parallax: at least element must be given")
  /\ (forall node,
        Cfg.element cfg = Some node ->
        exists cfg' this h',
          Parallax cfg h = Normal (cfg', this, h')
          /\ This.element this = node
          /\ (Cfg.startOffset cfg = None -> This.startOffset this = of_Z 0)
          /\ (Cfg.distance cfg = None -> This.distance this = of_Z 200)
          /\ (Cfg.breakpoint cfg = None -> This.breakpoint this = of_Z 1024)
          /\ (Cfg.throttling cfg = None -> This.throttling this = of_Z 15)
          /\ (Cfg.cssTrans cfg = None -> This.cssTrans this = false)).
Proof.
  assert (Hnone : Cfg.element cfg = None ->
                  Parallax cfg h
                  = Throw "parallax: at least element must be given").
  { intros El. unfold Parallax. now rewrite El. }
  split; [|split; [exact Hnone|]].
  - split.
    + intros El. eexists. now apply Hnone.
    + intros [msg E]. destruct (Cfg.element cfg) as [node|] eqn:El;
        [|reflexivity].
      destruct (Parallax_Normal cfg h node El) as (c & t & h' & N).
      congruence.
  - intros node El.
    destruct (Parallax_Normal cfg h node El) as (c & t & h' & N).
    exists c, t, h'. split; [exact N|].
    apply Parallax_inv in N.
    destruct N as (node' & El' & _ & -> & _).
    cbn [This.element This.startOffset This.distance This.breakpoint
         This.throttling This.cssTrans].
    repeat split; try (intros ->; reflexivity). congruence.
Qed.

(** No element: the constructor throws.  The element alone: every default. *)
Lemma Parallax_throws_iff_no_element_witness :
  Parallax empty_cfg (example_host (Q2Qc (inject_Z 800)))
    = Throw "parallax: at least element must be given"
  /\ exists cfg' this h',
       Parallax example_cfg (example_host (Q2Qc (inject_Z 800)))
         = Normal (cfg', this, h')
       /\ This.startOffset this = of_Z 0
       /\ This.distance this = of_Z 200
       /\ This.breakpoint this = of_Z 1024
       /\ This.throttling this = of_Z 15
       /\ This.cssTrans this = false.
Proof.
  split.
  - apply (Parallax_throws_iff_no_element empty_cfg
             (example_host (Q2Qc (inject_Z 800)))).
    reflexivity.
  - destruct (Parallax_throws_iff_no_element example_cfg
                (example_host (Q2Qc (inject_Z 800))))
      as (_ & _ & H).
    destruct (H 0%nat eq_refl)
      as (c & t & h' & N & _ & H1 & H2 & H3 & H4 & H5).
    exists c, t, h'. split; [exact N|].
    repeat split;
      [apply H1|apply H2|apply H3|apply H4|apply H5]; reflexivity.
Defined.

(** ** C1: the stop bias *)

(** The start bound takes the start bias in; the stop bound is the bottom
    edge of the element whatever [cfg.stop] holds. *)
Lemma Parallax_bounds (cfg : Cfg.t) (h : Host) (cfg' : Cfg.t)
    (this : This.t) (h' : Host) :
  Parallax cfg h = Normal (cfg', this, h') ->
  This.start this =
    num_add
      (of_Z (offsetTop (dom h (This.element this)) - innerHeight (window h)))
      (or_num (Cfg.start cfg) (of_Z 0))
  /\ This.stop this =
       of_Z (offsetTop (dom h (This.element this))
             + offsetHeight (dom h (This.element this))).
Proof.
  intros H. apply Parallax_inv in H.
  destruct H as (node & _ & _ & -> & _).
  cbn [This.element This.start This.stop].
  unfold start_bound, stop_bound. now rewrite of_Z_sub, of_Z_add.
Qed.

(** C1, at a stop bias of 100 on the example geometry: the start bound is
    1000 - 800 + 0 = 200, and the stop bound is 1400, not 1500: the stop
    bias is not added. *)
Theorem Parallax_stop_bias_ignored :
  exists s0,
    constructed (Parallax stop_bias_cfg (example_host (Q2Qc (inject_Z 800))))
      = Some s0
    /\ This.start (self s0) = of_Z 200
    /\ This.stop (self s0) = of_Z 1400
    /\ This.stop (self s0) <> of_Z (1400 + 100).
Proof.
  eexists. split; [reflexivity|].
  split; [apply Fin_eq; reflexivity|].
  split; [apply Fin_eq; reflexivity|].
  apply Fin_neq; reflexivity.
Qed.

(** ** C10: the constructor writes into the caller's configuration *)

(** C10, as the code has it.  The constructor overwrites [cfg.start] with
    [offsetTop - innerHeight + bias] and [cfg.stop] with
    [offsetTop + offsetHeight], the values the new object stores, and leaves
    the other options as they were.  A second construction from the same
    object adds [offsetTop - innerHeight] to the start bound of the first,
    and has its stop bound.  When [offsetTop] differs from [innerHeight]
    and the start bias is absent or an integer of magnitude at most 2^52
    (so that the sums are exact), [cfg.start] no longer holds what the
    caller gave and the start bound of the second construction differs from
    the first. *)
Theorem Parallax_overwrites_cfg (cfg : Cfg.t) (h : Host) (cfg1 : Cfg.t)
    (t1 : This.t) (h1 : Host) :
  Parallax cfg h = Normal (cfg1, t1, h1) ->
  let node := This.element t1 in
  let shift := of_Z (offsetTop (dom h node) - innerHeight (window h)) in
  let exact_sums :=
    long (offsetTop (dom h node)) /\ long (innerHeight (window h))
    /\ small_integer (or_num (Cfg.start cfg) (of_Z 0)) = true in
  Cfg.start cfg1 = Some (num_add shift (or_num (Cfg.start cfg) (of_Z 0)))
  /\ Cfg.stop cfg1
     = Some (of_Z (offsetTop (dom h node) + offsetHeight (dom h node)))
  /\ Cfg.start cfg1 = Some (This.start t1)
  /\ Cfg.stop cfg1 = Some (This.stop t1)
  /\ (Cfg.element cfg1 = Cfg.element cfg
      /\ Cfg.startOffset cfg1 = Cfg.startOffset cfg
      /\ Cfg.distance cfg1 = Cfg.distance cfg
      /\ Cfg.breakpoint cfg1 = Cfg.breakpoint cfg
      /\ Cfg.throttling cfg1 = Cfg.throttling cfg
      /\ Cfg.cssTrans cfg1 = Cfg.cssTrans cfg)
  /\ (offsetTop (dom h node) <> innerHeight (window h) ->
      exact_sums ->
      Cfg.start cfg1 <> Cfg.start cfg)
  /\ forall cfg2 t2 h2,
       Parallax cfg1 h1 = Normal (cfg2, t2, h2) ->
       This.stop t2 = This.stop t1
       /\ This.start t2 = num_add shift (This.start t1)
       /\ (offsetTop (dom h node) <> innerHeight (window h) ->
           exact_sums ->
           This.start t2 <> This.start t1).
Proof.
  intros H node shift exact_sums.
  pose proof (Parallax_bounds _ _ _ _ _ H) as [Hstart Hstop].
  fold node shift in Hstart, Hstop.
  apply Parallax_inv in H.
  destruct H as (n & El & -> & Ht & Hih & Hot & Hoh).
  assert (En : node = n) by (unfold node; now rewrite Ht).
  assert (Est : This.start t1 = start_bound cfg h n) by now rewrite Ht.
  assert (Esp : This.stop t1 = stop_bound h n) by now rewrite Ht.
  assert (Hnan : This.start t1 <> NaN).
  { rewrite Hstart. unfold shift, of_Z at 1.
    apply num_add_Fin_not_NaN, or_num_not_NaN. }
  assert (Hfin : exact_sums -> is_finite (This.start t1)).
  { intros (_ & _ & Hb). rewrite Hstart.
    destruct (or_num (Cfg.start cfg) (of_Z 0)); try discriminate Hb.
    exact I. }
  assert (Hneq : offsetTop (dom h node) <> innerHeight (window h) ->
                 exact_sums ->
                 num_add shift (This.start t1) <> This.start t1).
  { intros Hd Hf. unfold shift, of_Z.
    apply num_add_finite_neq; [|now apply Hfin].
    apply Q2Qc_inject_Z_neq0. lia. }
  cbn [Cfg.element Cfg.startOffset Cfg.distance Cfg.start Cfg.stop
       Cfg.breakpoint Cfg.throttling Cfg.cssTrans].
  rewrite <- Est, <- Esp.
  split; [now rewrite Hstart|]. split; [now rewrite Hstop|].
  split; [reflexivity|]. split; [reflexivity|].
  split; [now repeat split|]. split.
  - intros Hd Hf E. apply (Hneq Hd Hf).
    rewrite <- E, (or_num_Some_id _ Hnan) in Hstart. now symmetry.
  - intros cfg2 t2 h2 H2.
    pose proof (Parallax_bounds _ _ _ _ _ H2) as [Hstart2 Hstop2].
    apply Parallax_inv in H2.
    destruct H2 as (n2 & El2 & _ & Ht2 & _).
    cbn [Cfg.element] in El2.
    assert (En2 : This.element t2 = node)
      by (rewrite Ht2; cbn [This.element]; congruence).
    rewrite En2 in Hstart2, Hstop2.
    rewrite Hih, Hot, Hoh in *.
    cbn [Cfg.start] in Hstart2. fold shift in Hstart2.
    rewrite (or_num_Some_id _ Hnan) in Hstart2.
    split; [now rewrite Hstop2, Hstop|].
    split; [exact Hstart2|].
    intros Hd Hf. rewrite Hstart2. now apply Hneq.
Qed.

(** The example: [cfg.start] absent becomes 200, and a second construction
    from the same object starts at 400, not 200; both stop at 1400. *)
Lemma Parallax_overwrites_cfg_witness :
  exists cfg1 t1 h1 cfg2 t2 h2,
    Parallax example_cfg (example_host (Q2Qc (inject_Z 800)))
      = Normal (cfg1, t1, h1)
    /\ Parallax cfg1 h1 = Normal (cfg2, t2, h2)
    /\ Cfg.start cfg1 <> Cfg.start example_cfg
    /\ This.start t2 <> This.start t1
    /\ This.stop t2 = This.stop t1.
Proof.
  eexists _, _, _, _, _, _.
  split; [reflexivity|]. split; [reflexivity|].
  destruct (Parallax_overwrites_cfg example_cfg
              (example_host (Q2Qc (inject_Z 800))) _ _ _ eq_refl)
    as (_ & _ & _ & _ & _ & Hcfg & Hsecond).
  cbv zeta in Hcfg, Hsecond.
  assert (X : long 1000 /\ long 800
              /\ small_integer (or_num (Cfg.start example_cfg) (of_Z 0))
                 = true)
    by (unfold long; repeat split; try reflexivity; lia).
  split; [apply Hcfg; [discriminate|exact X]|].
  destruct (Hsecond _ _ _ eq_refl) as (Hstop & _ & Hstart).
  split; [apply Hstart; [discriminate|exact X]|exact Hstop].
Defined.

(** The claim as stated fails for an element that sits one window height
    down the page: [cfg.start] still holds the bias of the caller, and a
    second construction from the same object has the bounds of the first. *)
Lemma Parallax_reuse_counterexample :
  exists cfg1 t1 h1 cfg2 t2 h2,
    Parallax start_bias_cfg fold_host = Normal (cfg1, t1, h1)
    /\ Parallax cfg1 h1 = Normal (cfg2, t2, h2)
    /\ Cfg.start cfg1 = Cfg.start start_bias_cfg
    /\ This.start t2 = This.start t1
    /\ This.stop t2 = This.stop t1.
Proof.
  eexists _, _, _, _, _, _.
  split; [reflexivity|]. split; [reflexivity|].
  split; [|split].
  - unfold Cfg.set_stop, Cfg.set_start, start_bias_cfg. cbn [Cfg.start].
    apply (f_equal Some). apply Fin_eq; reflexivity.
  - apply Fin_eq; reflexivity.
  - apply Fin_eq; reflexivity.
Qed.

(** * Further properties of the methods and of the constructor *)

(** ** Relations kept by every step of a method *)

Lemma preserves_ret (R : St -> St -> Prop) {A : Type} (a : A) :
  (forall s, R s s) -> preserves R (ret a).
Proof. intros Hrefl s. apply Hrefl. Qed.

Lemma preserves_gets (R : St -> St -> Prop) {A : Type} (f : St -> A) :
  (forall s, R s s) -> preserves R (gets f).
Proof. intros Hrefl s. apply Hrefl. Qed.

Lemma preserves_bind (R : St -> St -> Prop) {A B : Type} (m : M A)
    (k : A -> M B) :
  (forall s1 s2 s3, R s1 s2 -> R s2 s3 -> R s1 s3) ->
  preserves R m -> (forall a, preserves R (k a)) -> preserves R (bind m k).
Proof.
  intros Htrans Hm Hk s. unfold bind.
  specialize (Hm s). destruct (m s) as [a s1]. cbn [snd] in Hm.
  apply (Htrans _ _ _ Hm), Hk.
Qed.

Lemma preserves_if (R : St -> St -> Prop) {A : Type} (b : bool)
    (m1 m2 : M A) :
  preserves R m1 -> preserves R m2 -> preserves R (if b then m1 else m2).
Proof. now destruct b. Qed.

Lemma footprint_refl (s : St) : footprint s s.
Proof. constructor; auto using frame_refl; tauto. Qed.

Lemma footprint_trans (s1 s2 s3 : St) :
  footprint s1 s2 -> footprint s2 s3 -> footprint s1 s3.
Proof.
  intros [F1 N1 S1 R1 X1] [F2 N2 S2 R2 X2].
  pose proof (frame_self _ _ F1) as E.
  constructor.
  - now apply (frame_trans _ _ _ F1).
  - intros r Hr. rewrite N2, N1; congruence.
  - intros f Hf. rewrite S2, S1; [reflexivity|assumption|congruence].
  - intros f Hf. now apply R2, R1.
  - lia.
Qed.

Lemma style_only_refl (s : St) : style_only s s.
Proof. now constructor. Qed.

Lemma style_only_trans (s1 s2 s3 : St) :
  style_only s1 s2 -> style_only s2 s3 -> style_only s1 s3.
Proof. intros [A1 B1 C1] [A2 B2 C2]. constructor; congruence. Qed.

Lemma update_node_other (r : NodeRef) (f : Element -> Element)
    (d : NodeRef -> Element) (r' : NodeRef) :
  r' <> r -> update_node r f d r' = d r'.
Proof.
  intros H. unfold update_node.
  destruct (Nat.eqb_spec r' r); [contradiction|reflexivity].
Qed.

Lemma add_listener_other (f g : Fn) (l : list Fn) :
  g <> f -> (In g (add_listener f l) <-> In g l).
Proof.
  intros H. unfold add_listener.
  destruct (in_dec Nat.eq_dec f l); [reflexivity|].
  rewrite in_app_iff. cbn [In]. intuition congruence.
Qed.

Lemma add_listener_keeps (f g : Fn) (l : list Fn) :
  In g l -> In g (add_listener f l).
Proof.
  intros H. unfold add_listener.
  destruct (in_dec Nat.eq_dec f l); [exact H|].
  apply in_or_app. now left.
Qed.

Lemma remove_listener_other (f g : Fn) (l : list Fn) :
  g <> f -> (In g (remove_listener f l) <-> In g l).
Proof.
  intros H. unfold remove_listener. split.
  - intros Hin. now apply in_remove in Hin.
  - intros Hin. now apply in_in_remove.
Qed.

Lemma footprint_set_backgroundPosition (v : jsstr) :
  preserves footprint (set_backgroundPosition v).
Proof.
  intros s. constructor; try tauto.
  - apply frames_set_backgroundPosition.
  - intros r Hr. cbn. now apply update_node_other.
  - cbn. lia.
Qed.

Lemma footprint_set_transition (v : jsstr) :
  preserves footprint (set_transition v).
Proof.
  intros s. constructor; try tauto.
  - apply frames_set_transition.
  - intros r Hr. cbn. destruct (transition_discards v); [reflexivity|].
    now apply update_node_other.
  - cbn. lia.
Qed.

Lemma footprint_register : preserves footprint register.
Proof.
  intros s. constructor; try tauto.
  - apply frames_register.
  - intros f Hf. cbn. now apply add_listener_other.
  - cbn. lia.
Qed.

Lemma footprint_unregister : preserves footprint unregister.
Proof.
  intros s. constructor; try tauto.
  - apply frames_unregister.
  - intros f Hf. cbn. now apply remove_listener_other.
  - cbn. lia.
Qed.

Lemma footprint_addEventListener_resize (f : Fn) :
  preserves footprint (window_addEventListener_resize f).
Proof.
  intros s. constructor; try tauto.
  - apply frames_addEventListener_resize.
  - intros g Hg. cbn. now apply add_listener_keeps.
  - cbn. lia.
Qed.

Lemma footprint_helpers_debounce : preserves footprint helpers_debounce.
Proof.
  intros s. constructor; try tauto.
  - apply frames_helpers_debounce.
  - cbn. lia.
Qed.

Create HintDb footprint.
#[local] Hint Resolve footprint_set_backgroundPosition footprint_set_transition
  footprint_register footprint_unregister
  footprint_addEventListener_resize footprint_helpers_debounce : footprint.

Ltac preserves_step known refl trans :=
  first
    [ solve [known]
    | apply preserves_ret; exact refl
    | apply preserves_gets; exact refl
    | apply preserves_if
    | apply preserves_bind; [exact trans| |intros ?] ].

Ltac footprint_method :=
  cbv beta zeta delta
    [this_ window_pageYOffset window_innerHeight window_innerWidth
     this_element_offsetTop this_element_offsetHeight];
  repeat preserves_step ltac:(auto with footprint) footprint_refl
    footprint_trans.

Lemma footprint_getOffsetPercentage : preserves footprint getOffsetPercentage.
Proof. intros s. apply footprint_refl. Qed.
#[local] Hint Resolve footprint_getOffsetPercentage : footprint.

Lemma footprint_doMovement : preserves footprint doMovement.
Proof. unfold doMovement. footprint_method. Qed.
#[local] Hint Resolve footprint_doMovement : footprint.

Lemma footprint_parallax : preserves footprint parallax.
Proof. unfold parallax. footprint_method. Qed.
#[local] Hint Resolve footprint_parallax : footprint.

Lemma footprint_handler : preserves footprint handler.
Proof. unfold handler. footprint_method. Qed.
#[local] Hint Resolve footprint_handler : footprint.

Lemma footprint_handleRegisters : preserves footprint handleRegisters.
Proof. unfold handleRegisters. footprint_method. Qed.
#[local] Hint Resolve footprint_handleRegisters : footprint.

Lemma footprint_init : preserves footprint init.
Proof. unfold init. footprint_method. Qed.
#[local] Hint Resolve footprint_init : footprint.

Lemma footprint_call (m : method) : preserves footprint (call m).
Proof. destruct m; unfold call; footprint_method. Qed.

Lemma style_only_set_backgroundPosition (v : jsstr) :
  preserves style_only (set_backgroundPosition v).
Proof. intros s. now constructor. Qed.

Lemma style_only_set_transition (v : jsstr) :
  preserves style_only (set_transition v).
Proof. intros s. now constructor. Qed.

Lemma style_only_getOffsetPercentage :
  preserves style_only getOffsetPercentage.
Proof. intros s. apply style_only_refl. Qed.

Create HintDb style_only.
#[local] Hint Resolve style_only_set_backgroundPosition
  style_only_set_transition style_only_getOffsetPercentage : style_only.

Ltac style_only_method :=
  cbv beta zeta delta
    [this_ window_pageYOffset window_innerHeight window_innerWidth
     this_element_offsetTop this_element_offsetHeight];
  repeat preserves_step ltac:(auto with style_only) style_only_refl
    style_only_trans.

Lemma style_only_doMovement : preserves style_only doMovement.
Proof. unfold doMovement. style_only_method. Qed.
#[local] Hint Resolve style_only_doMovement : style_only.

Lemma style_only_parallax : preserves style_only parallax.
Proof. unfold parallax. style_only_method. Qed.
#[local] Hint Resolve style_only_parallax : style_only.

(** ** Sequencing *)

Lemma exec_bind {A B : Type} (m : M A) (k : A -> M B) (s : St) :
  exec (bind m k) s = exec (k (eval m s)) (exec m s).
Proof. unfold exec, eval, bind. now destruct (m s). Qed.

(** The ratio and the gate read the receiver and the geometry only. *)
Lemma getOffsetPercentage_frame (s s' : St) :
  frame s s' -> eval getOffsetPercentage s' = eval getOffsetPercentage s.
Proof.
  intros [Fs Fh _ Fy Ft Fo]. unfold getOffsetPercentage.
  run. unfold this_element_of. now rewrite Fs, Fh, Fy, Ft, Fo.
Qed.

Lemma gate_open_frame (s s' : St) :
  frame s s' -> gate_open s' = gate_open s.
Proof.
  intros [Fs _ _ Fy _ _]. unfold gate_open. now rewrite Fs, Fy.
Qed.

(** The value [doMovement] writes in state [s]. *)
Lemma parallax_backgroundPosition (s : St) :
  backgroundPosition (style (this_element_of (exec parallax s))) =
    if gate_open s
    then Cat3 "center "
           (num_sub (This.startOffset (self s))
              (num_mul (eval getOffsetPercentage s) (This.distance (self s))))
           "px"
    else backgroundPosition (style (this_element_of s)).
Proof.
  unfold exec at 1. rewrite parallax_run. fold (gate_open s).
  destruct (gate_open s); [|reflexivity].
  fold (exec doMovement s). rewrite doMovement_exec.
  apply set_backgroundPosition_written.
Qed.

Lemma set_transition_backgroundPosition (v : jsstr) (s : St) :
  backgroundPosition (style (this_element_of (exec (set_transition v) s)))
  = backgroundPosition (style (this_element_of s)).
Proof.
  unfold set_transition, this_element_of. run.
  cbn [self host dom]. destruct (transition_discards v); [reflexivity|].
  now rewrite update_node_same.
Qed.

(** The value [init] assigns to the transition has a colon: the assignment
    is discarded, whatever the number in it. *)
Lemma transition_discards_init (n : num) :
  transition_discards (Cat3 "background-position: " n "s") = true.
Proof. reflexivity. Qed.

Lemma set_transition_discarded (v : jsstr) (s : St) :
  transition_discards v = true ->
  dom (host (exec (set_transition v) s)) = dom (host s)
  /\ calls (host (exec (set_transition v) s))
     = SetTransition (This.element (self s)) v :: calls (host s).
Proof.
  intros H. unfold set_transition. run. cbn [self host dom calls].
  now rewrite H.
Qed.

Lemma set_backgroundPosition_transition (v : jsstr) (s : St) :
  transition (style (this_element_of (exec (set_backgroundPosition v) s)))
  = transition (style (this_element_of s)).
Proof.
  unfold set_backgroundPosition, this_element_of. run.
  cbn [self host dom]. now rewrite update_node_same.
Qed.

Lemma parallax_transition (s : St) :
  transition (style (this_element_of (exec parallax s)))
  = transition (style (this_element_of s)).
Proof.
  unfold exec at 1. rewrite parallax_run.
  destruct (_ && _); [|reflexivity].
  fold (exec doMovement s). rewrite doMovement_exec.
  apply set_backgroundPosition_transition.
Qed.

(** [handleRegisters] leaves the DOM alone. *)
Lemma handleRegisters_dom (s : St) :
  dom (host (exec handleRegisters s)) = dom (host s).
Proof.
  unfold handleRegisters, handler, register, unregister, helpers_debounce,
    fresh_fn, window_addEventListener_scroll,
    window_removeEventListener_scroll, window_addEventListener_resize.
  run. now destruct (num_gtb _ _).
Qed.

Lemma eval_this {A : Type} (field : This.t -> A) (s : St) :
  eval (this_ field) s = field (self s).
Proof. reflexivity. Qed.

Lemma exec_this {A : Type} (field : This.t -> A) (s : St) :
  exec (this_ field) s = s.
Proof. reflexivity. Qed.

(** [init] step by step: the state before its last line, [this.parallax()]. *)
Lemma init_exec (s : St) :
  exists s1,
    exec init s = exec parallax s1
    /\ frame s s1
    /\ backgroundPosition (style (this_element_of s1))
       = Cat3 "center " (This.startOffset (self s)) "px"
    /\ transition (style (this_element_of s1))
       = transition (style (this_element_of s))
    /\ window (host s1) = window (host (exec handleRegisters s))
    /\ next_fn (host s1) = next_fn (host (exec handleRegisters s))
    /\ (This.cssTrans (self s) = true ->
        In (SetTransition (This.element (self s))
              (Cat3 "background-position: "
                 (num_div (of_Z 1) (This.throttling (self s))) "s"))
           (calls (host s1))).
Proof.
  unfold init. repeat rewrite ?exec_bind, ?eval_this, ?exec_this.
  set (sa := exec handleRegisters s).
  assert (Fa : frame s sa) by apply frames_handleRegisters.
  assert (Da : dom (host sa) = dom (host s)) by apply handleRegisters_dom.
  pose proof (frame_self _ _ Fa) as Ea.
  rewrite Ea.
  set (v := Cat3 "center " (This.startOffset (self s)) "px").
  set (sb := exec (set_backgroundPosition v) sa).
  assert (Fb : frame sa sb) by apply frames_set_backgroundPosition.
  assert (Bb : backgroundPosition (style (this_element_of sb)) = v)
    by apply set_backgroundPosition_written.
  assert (Tb : transition (style (this_element_of sb))
               = transition (style (this_element_of s))).
  { unfold sb. rewrite set_backgroundPosition_transition.
    unfold this_element_of. now rewrite Da, Ea. }
  assert (Eb : self sb = self s) by (rewrite <- Ea; apply Fb).
  rewrite Eb.
  eexists. split; [reflexivity|].
  destruct (This.cssTrans (self s)).
  - rewrite exec_bind, eval_this, exec_this, Eb.
    set (t := Cat3 "background-position: "
                (num_div (of_Z 1) (This.throttling (self s))) "s").
    destruct (set_transition_discarded t sb (transition_discards_init _))
      as [Dt Ct].
    split; [|split; [|split; [|split; [|split; [reflexivity|]]]]].
    + eapply frame_trans; [exact Fa|]. eapply frame_trans; [exact Fb|].
      apply frames_set_transition.
    + now rewrite set_transition_backgroundPosition.
    + rewrite <- Tb. unfold this_element_of at 1. rewrite Dt.
      pose proof (frames_set_transition t sb) as Ft.
      apply frame_self in Ft. fold (exec (set_transition t) sb) in Ft.
      now rewrite Ft.
    + reflexivity.
    + intros _. rewrite Ct, Eb. now left.
  - split; [|split; [|split; [|split; [|split; [reflexivity|]]]]].
    + eapply frame_trans; [exact Fa|exact Fb].
    + exact Bb.
    + exact Tb.
    + reflexivity.
    + discriminate.
Qed.

(** ** What [init] leaves in the style *)

Lemma parallax_calls_kept (s : St) (c : HostCall) :
  In c (calls (host s)) -> In c (calls (host (exec parallax s))).
Proof.
  intros H. unfold exec. rewrite parallax_run.
  destruct (_ && _); [|exact H].
  fold (exec doMovement s). rewrite doMovement_exec.
  rewrite set_backgroundPosition_calls. now right.
Qed.

Lemma init_style (s : St) :
  backgroundPosition (style (this_element_of (exec init s)))
  = (if gate_open s
     then doMovement_value s
     else Cat3 "center " (This.startOffset (self s)) "px")
  /\ transition (style (this_element_of (exec init s)))
     = transition (style (this_element_of s))
  /\ (This.cssTrans (self s) = true ->
      In (SetTransition (This.element (self s))
            (Cat3 "background-position: "
               (num_div (of_Z 1) (This.throttling (self s))) "s"))
         (calls (host (exec init s)))).
Proof.
  destruct (init_exec s) as (s1 & E & F & B & T & _ & _ & C).
  rewrite E, parallax_backgroundPosition, parallax_transition.
  rewrite (gate_open_frame _ _ F), (getOffsetPercentage_frame _ _ F).
  rewrite (frame_self _ _ F). rewrite B.
  split; [reflexivity|]. split; [exact T|].
  intros H. now apply parallax_calls_kept, C.
Qed.


(** X2.  [init] never changes the transition of the element.  With
    [cssTrans] it does assign
    ["background-position: " + 1/throttling + "s"], but that string has a
    colon: it is no value of the property and the style setter discards
    it. *)
Theorem init_transition (s : St) :
  transition (style (this_element_of (exec init s)))
  = transition (style (this_element_of s))
  /\ (This.cssTrans (self s) = true ->
      In (SetTransition (This.element (self s))
            (Cat3 "background-position: "
               (num_div (of_Z 1) (This.throttling (self s))) "s"))
         (calls (host (exec init s)))).
Proof. apply init_style. Qed.

(** The example object with [cssTrans]: the assignment is made and the
    transition is the empty string it was. *)
Lemma init_transition_witness :
  In (SetTransition 0%nat
        (Cat3 "background-position: " (num_div (of_Z 1) (of_Z 15)) "s"))
     (calls
        (host
           (exec init
              (mkSt
                 (This.mk 0%nat (of_Z 0) (of_Z 200) (of_Z 200) (of_Z 1400)
                    (of_Z 1024) (of_Z 15) true 0%nat)
                 (example_host (Q2Qc (inject_Z 800)))))))
  /\ transition
       (style
          (this_element_of
             (exec init
                (mkSt
                   (This.mk 0%nat (of_Z 0) (of_Z 200) (of_Z 200) (of_Z 1400)
                      (of_Z 1024) (of_Z 15) true 0%nat)
                   (example_host (Q2Qc (inject_Z 800)))))))
     = Lit "".
Proof.
  destruct (init_transition
              (mkSt
                 (This.mk 0%nat (of_Z 0) (of_Z 200) (of_Z 200) (of_Z 1400)
                    (of_Z 1024) (of_Z 15) true 0%nat)
                 (example_host (Q2Qc (inject_Z 800)))))
    as [Ht Hc].
  split; [apply Hc; reflexivity|]. rewrite Ht. reflexivity.
Defined.

(** ** [parallax] twice *)

Lemma parallax_dom (s : St) (r : NodeRef) :
  dom (host (exec parallax s)) r =
    if gate_open s
    then update_node (This.element (self s))
           (with_backgroundPosition (doMovement_value s)) (dom (host s)) r
    else dom (host s) r.
Proof.
  unfold exec. rewrite parallax_run. fold (gate_open s).
  destruct (gate_open s); [|reflexivity].
  fold (exec doMovement s). now rewrite doMovement_exec.
Qed.

Lemma doMovement_value_frame (s s' : St) :
  frame s s' -> doMovement_value s' = doMovement_value s.
Proof.
  intros F. unfold doMovement_value.
  now rewrite (getOffsetPercentage_frame _ _ F), (frame_self _ _ F).
Qed.

(** X3.  A second [parallax] at the same scroll position changes no node:
    it writes the value that is there. *)
Theorem parallax_twice (s : St) (r : NodeRef) :
  dom (host (exec parallax (exec parallax s))) r
  = dom (host (exec parallax s)) r.
Proof.
  pose proof (frames_parallax s) as F. fold (exec parallax s) in F.
  rewrite (parallax_dom (exec parallax s)).
  rewrite (gate_open_frame _ _ F), (doMovement_value_frame _ _ F).
  rewrite (frame_self _ _ F).
  destruct (gate_open s) eqn:G; [|reflexivity].
  unfold update_node at 1. rewrite !(parallax_dom s), G.
  unfold update_node.
  now destruct (Nat.eqb r (This.element (self s))).
Qed.

(** ** [register] and [unregister] *)

Lemma NoDup_remove_listener (f : Fn) (l : list Fn) :
  NoDup l -> NoDup (remove_listener f l).
Proof.
  unfold remove_listener. induction 1 as [|x l Hx Hl IH]; cbn [remove].
  - constructor.
  - destruct (Nat.eq_dec f x); [exact IH|].
    constructor; [|exact IH].
    intros Hin. apply in_remove in Hin. now apply Hx.
Qed.

Lemma NoDup_add_listener (f : Fn) (l : list Fn) :
  NoDup l -> NoDup (add_listener f l).
Proof.
  intros H. unfold add_listener.
  destruct (in_dec Nat.eq_dec f l) as [Hin|Hin]; [exact H|].
  apply NoDup_app; [exact H|repeat constructor; exact (fun F => F)|].
  intros a Ha [<-|[]]. now apply Hin.
Qed.

Lemma add_listener_twice (f : Fn) (l : list Fn) :
  add_listener f (add_listener f l) = add_listener f l.
Proof.
  unfold add_listener at 1.
  destruct (in_dec Nat.eq_dec f (add_listener f l)) as [H|H];
    [reflexivity|].
  exfalso. apply H, add_listener_In.
Qed.

Lemma remove_add_listener (f : Fn) (l : list Fn) :
  ~ In f l -> remove_listener f (add_listener f l) = l.
Proof.
  intros H. unfold add_listener, remove_listener.
  destruct (in_dec Nat.eq_dec f l); [contradiction|].
  rewrite remove_app, (notin_remove _ _ _ H). cbn [remove].
  destruct (Nat.eq_dec f f); [apply app_nil_r|contradiction].
Qed.

(** X4.  [register] twice is [register] once; [unregister] after
    [register] leaves the listener out, and gives the list of scroll
    listeners back when the listener was not in it; [register] after
    [unregister] leaves the listener in; [unregister] of a listener that is
    not registered changes nothing in the list; a list without duplicates
    stays without duplicates. *)
Theorem register_unregister (s : St) :
  let f := This.registerMe (self s) in
  let listeners (s' : St) := onscroll (window (host s')) in
  listeners (exec register (exec register s)) = listeners (exec register s)
  /\ ~ In f (listeners (exec unregister (exec register s)))
  /\ In f (listeners (exec register (exec unregister s)))
  /\ (~ In f (listeners s) ->
      listeners (exec unregister (exec register s)) = listeners s)
  /\ (~ In f (listeners s) -> listeners (exec unregister s) = listeners s)
  /\ (NoDup (listeners s) ->
      NoDup (listeners (exec register s))
      /\ NoDup (listeners (exec unregister s))).
Proof.
  intros f listeners. unfold listeners, register, unregister. run.
  cbn [self host window onscroll with_onscroll].
  split; [apply add_listener_twice|].
  split; [apply remove_listener_not_In|].
  split; [apply add_listener_In|].
  split; [apply remove_add_listener|].
  split; [apply notin_remove|].
  intros H. split; [now apply NoDup_add_listener|now apply NoDup_remove_listener].
Qed.

(** With another listener in the list: the round trip gives the list
    back. *)
Lemma register_unregister_witness :
  onscroll
    (window
       (host
          (exec unregister
             (exec register
                (mkSt (example_this (of_Z 0))
                   (mkHost (mkWindow 800 1280 (Q2Qc (inject_Z 0)) [7%nat] [])
                      (fun _ => example_element) [] 8%nat))))))
  = [7%nat]
  /\ NoDup (onscroll (window (host (exec register (width_state 1280))))).
Proof.
  split.
  - apply (register_unregister
             (mkSt (example_this (of_Z 0))
                (mkHost (mkWindow 800 1280 (Q2Qc (inject_Z 0)) [7%nat] [])
                   (fun _ => example_element) [] 8%nat))).
    cbn. intros [H|[]]. discriminate H.
  - apply (register_unregister (width_state 1280)).
    cbn. repeat constructor. exact (fun F => F).
Defined.

(** ** The footprint of the methods *)

(** X5.  No method of the prototype writes anything but the style of the
    tracked element and the listener lists: the receiver, the scroll
    position, the size of the window, the geometry of every node, every
    other node, and the scroll listeners of others are as they were. *)
Theorem methods_footprint (m : method) (s : St) :
  let s' := exec (call m) s in
  self s' = self s
  /\ pageYOffset (window (host s')) = pageYOffset (window (host s))
  /\ innerHeight (window (host s')) = innerHeight (window (host s))
  /\ innerWidth (window (host s')) = innerWidth (window (host s))
  /\ (forall r,
        offsetTop (dom (host s') r) = offsetTop (dom (host s) r)
        /\ offsetHeight (dom (host s') r) = offsetHeight (dom (host s) r))
  /\ (forall r,
        r <> This.element (self s) ->
        dom (host s') r = dom (host s) r)
  /\ (forall f,
        f <> This.registerMe (self s) ->
        (In f (onscroll (window (host s')))
         <-> In f (onscroll (window (host s))))).
Proof.
  intros s'. destruct (footprint_call m s) as [[A B C D E F] N S R X].
  fold (exec (call m) s) in *. fold s' in A, B, C, D, E, F, N, S.
  repeat split; auto.
  - now apply S.
  - now apply S.
Qed.

(** [doMovement] on the first node leaves the second node as it is. *)
Lemma methods_footprint_witness :
  dom (host (exec (call MdoMovement)
               (example_state (of_Z 0) (Q2Qc (inject_Z 800))))) 1%nat
  = example_element.
Proof.
  apply (methods_footprint MdoMovement
           (example_state (of_Z 0) (Q2Qc (inject_Z 800)))).
  discriminate.
Defined.

(** X6.  No method removes a resize listener, and every call of
    [handleRegisters] adds one: a new function object, appended when the
    identities in the list are older than it. *)
Theorem resize_listeners_accumulate (s : St) :
  (forall m f,
     In f (onresize (window (host s))) ->
     In f (onresize (window (host (exec (call m) s)))))
  /\ In (next_fn (host s))
        (onresize (window (host (exec handleRegisters s))))
  /\ next_fn (host (exec handleRegisters s)) = S (next_fn (host s))
  /\ ((forall f,
         In f (onresize (window (host s))) -> (f < next_fn (host s))%nat) ->
      onresize (window (host (exec handleRegisters s)))
      = (onresize (window (host s)) ++ [next_fn (host s)])%list).
Proof.
  split.
  { intros m f. apply (fp_onresize _ _ (footprint_call m s)). }
  assert (E : onresize (window (host (exec handleRegisters s)))
              = add_listener (next_fn (host s)) (onresize (window (host s)))
              /\ next_fn (host (exec handleRegisters s))
                 = S (next_fn (host s))).
  { unfold handleRegisters, handler, register, unregister, helpers_debounce,
      fresh_fn, window_addEventListener_scroll,
      window_removeEventListener_scroll, window_addEventListener_resize.
    run. now destruct (num_gtb _ _). }
  destruct E as [E1 E2]. rewrite E1.
  split; [apply add_listener_In|]. split; [exact E2|].
  intros Hold. unfold add_listener.
  destruct (in_dec Nat.eq_dec _ _) as [Hin|Hin]; [|reflexivity].
  apply Hold in Hin. lia.
Qed.

(** Two calls of [handleRegisters] leave two resize listeners. *)
Lemma resize_listeners_accumulate_witness :
  onresize
    (window
       (host
          (exec handleRegisters (exec handleRegisters (width_state 1280)))))
  = [1%nat; 2%nat].
Proof.
  pose proof (resize_listeners_accumulate (width_state 1280))
    as (_ & _ & _ & H1).
  pose proof (resize_listeners_accumulate
                (exec handleRegisters (width_state 1280)))
    as (_ & _ & _ & H2).
  rewrite H2.
  - rewrite H1; [reflexivity|]. intros f [].
  - rewrite H1; [|intros f []]. cbn. intros f [<-|[]]. lia.
Defined.

(** ** The ratio as a rational *)

Lemma Q2Qc_inject_Z_lt (a b : Z) :
  a < b -> (Q2Qc (inject_Z a) < Q2Qc (inject_Z b))%Qc.
Proof.
  intros H. unfold Qclt, Q2Qc; cbn [this]. rewrite !Qred_correct.
  now rewrite <- Zlt_Qlt.
Qed.

Lemma Q2Qc_inject_Z_lt_inv (a b : Z) :
  (Q2Qc (inject_Z a) < Q2Qc (inject_Z b))%Qc -> a < b.
Proof.
  unfold Qclt, Q2Qc; cbn [this]. rewrite !Qred_correct.
  now rewrite <- Zlt_Qlt.
Qed.

Lemma Qcinv_pos (d : Qc) : (0 < d)%Qc -> (0 < / d)%Qc.
Proof.
  unfold Qclt, Qcinv, Q2Qc; cbn [this]. rewrite !Qred_correct.
  apply Qinv_lt_0_compat.
Qed.

Lemma Qclt_sub_l (l a b : Qc) : (a < b)%Qc -> (l - b < l - a)%Qc.
Proof.
  intros H. apply Qclt_minus_iff. apply Qclt_minus_iff in H.
  replace (l - a + - (l - b))%Qc with (b + - a)%Qc by ring. exact H.
Qed.

(** With a positive sum of the two heights the ratio is the distance from
    the scroll position up to [lowerBound], over that sum. *)
Lemma getOffsetPercentage_ratio (s : St) :
  0 < offsetHeight (this_element_of s) + innerHeight (window (host s)) ->
  eval getOffsetPercentage s =
    Fin ((Q2Qc (inject_Z (offsetTop (this_element_of s)
                          + offsetHeight (this_element_of s)))
          - pageYOffset (window (host s)))
         * / Q2Qc (inject_Z (offsetHeight (this_element_of s)
                             + innerHeight (window (host s)))))%Qc.
Proof.
  intros Hpos. unfold getOffsetPercentage. run.
  rewrite range_value, of_Z_add. unfold of_Z, num_sub.
  cbn [num_neg num_add].
  rewrite <- Q2Qc_inject_Z_opp.
  assert (Hd : Q2Qc (inject_Z (offsetHeight (this_element_of s)
                               + innerHeight (window (host s)))) <> 0%Qc)
    by (apply Q2Qc_inject_Z_neq0; lia).
  assert (Hn : (- Q2Qc (inject_Z (offsetHeight (this_element_of s)
                                  + innerHeight (window (host s)))))%Qc
               <> 0%Qc).
  { intros E. apply Hd.
    rewrite <- (Qcopp_involutive (Q2Qc _)), E. ring. }
  rewrite num_div_finite by exact Hn.
  f_equal. field. now split.
Qed.

Lemma num_ltb_Fin (a b : Qc) : num_ltb (Fin a) (Fin b) = true <-> (a < b)%Qc.
Proof.
  cbn [num_ltb]. rewrite Qclt_alt.
  destruct (a ?= b)%Qc; split; congruence.
Qed.

Lemma num_le_lt_Fin (a c : Qc) (b : num) :
  num_le (Fin a) b -> num_lt b (Fin c) -> (a < c)%Qc.
Proof.
  unfold num_le, num_lt. destruct b as [q| | |]; cbn [num_leb num_ltb];
    try discriminate.
  rewrite negb_true_iff. intros H1 H2.
  apply (proj1 (num_ltb_Fin _ _)) in H2.
  apply Qcle_lt_trans with q; [|exact H2].
  apply Qcnot_lt_le. intros H. apply num_ltb_Fin in H.
  cbn [num_ltb] in H. congruence.
Qed.

Lemma num_lt_le_Fin (a c : Qc) (b : num) :
  num_lt (Fin a) b -> num_le b (Fin c) -> (a < c)%Qc.
Proof.
  unfold num_le, num_lt. destruct b as [q| | |]; cbn [num_leb num_ltb];
    try discriminate.
  rewrite negb_true_iff. intros H1 H2.
  apply (proj1 (num_ltb_Fin _ _)) in H1.
  apply Qclt_le_trans with q; [exact H1|].
  apply Qcnot_lt_le. intros H. apply num_ltb_Fin in H.
  cbn [num_ltb] in H. congruence.
Qed.

Lemma num_le_Fin (a b : Qc) : (a <= b)%Qc -> num_le (Fin a) (Fin b).
Proof.
  intros H. unfold num_le. cbn [num_leb]. apply negb_true_iff.
  apply not_true_is_false. intros C. apply num_ltb_Fin in C.
  now apply (Qcle_not_lt _ _ H).
Qed.

Lemma Qcle_sub_l (l a b : Qc) : (a <= b)%Qc -> (l - b <= l - a)%Qc.
Proof.
  intros H. apply Qcle_minus_iff. apply Qcle_minus_iff in H.
  replace (l - a + - (l - b))%Qc with (b + - a)%Qc by ring. exact H.
Qed.

(** X10.  When the bounds lie within the scroll positions at which the
    element is on screen ([offsetTop - innerHeight <= start] and
    [stop <= offsetTop + offsetHeight], as the constructor leaves them for a
    start bias that is not negative) and [parallax] moves the background,
    the ratio is a number from 0 to 1: [0 <= ratio] and [ratio <= 1].  (The
    exact quotient lies strictly between the two; rounding can reach
    them.) *)
Theorem ratio_within_gate (s : St) :
  let offsetTop := offsetTop (this_element_of s) in
  let height := offsetHeight (this_element_of s) in
  let windowHeight := innerHeight (window (host s)) in
  num_le (of_Z (offsetTop - windowHeight)) (This.start (self s)) ->
  num_le (This.stop (self s)) (of_Z (offsetTop + height)) ->
  gate_open s = true ->
  num_le (of_Z 0) (eval getOffsetPercentage s)
  /\ num_le (eval getOffsetPercentage s) (of_Z 1).
Proof.
  intros ot height windowHeight Hstart Hstop Hgate.
  apply andb_true_iff in Hgate. destruct Hgate as [G1 G2].
  unfold num_gtb in G1.
  pose proof (num_le_lt_Fin _ _ _ Hstart G1) as Hu.
  pose proof (num_lt_le_Fin _ _ _ G2 Hstop) as Hl.
  assert (Hpos : 0 < height + windowHeight).
  { pose proof (Qclt_trans _ _ _ Hu Hl) as H.
    apply Q2Qc_inject_Z_lt_inv in H. lia. }
  rewrite (getOffsetPercentage_ratio s Hpos). fold ot height windowHeight.
  set (y := pageYOffset (window (host s))) in *.
  set (L := Q2Qc (inject_Z (ot + height))) in *.
  set (D := Q2Qc (inject_Z (height + windowHeight))).
  assert (HD : (0 < D)%Qc) by (apply (Q2Qc_inject_Z_lt 0); exact Hpos).
  assert (HDn : D <> 0%Qc) by (apply Q2Qc_inject_Z_neq0; lia).
  pose proof (Qcinv_pos D HD) as Hinv.
  unfold of_Z.
  change (Q2Qc (inject_Z 0)) with 0%Qc. change (Q2Qc (inject_Z 1)) with 1%Qc.
  split; apply num_le_Fin, Qclt_le_weak.
  - replace 0%Qc with (0 * / D)%Qc by ring.
    apply Qcmult_lt_compat_r; [exact Hinv|].
    apply Qclt_minus_iff in Hl. exact Hl.
  - replace 1%Qc with (D * / D)%Qc by (field; exact HDn).
    apply Qcmult_lt_compat_r; [exact Hinv|].
    replace D with (L - Q2Qc (inject_Z (ot - windowHeight)))%Qc.
    + now apply Qclt_sub_l.
    + unfold L, D, Qcminus. rewrite Q2Qc_inject_Z_opp, Q2Qc_inject_Z_add.
      f_equal. f_equal. lia.
Qed.

(** The example geometry with the bounds 200 and 1400, scrolled to 800. *)
Lemma ratio_within_gate_witness :
  num_le (of_Z 0)
    (eval getOffsetPercentage
       (example_state (of_Z 0) (Q2Qc (inject_Z 800))))
  /\ num_le
       (eval getOffsetPercentage
          (example_state (of_Z 0) (Q2Qc (inject_Z 800))))
       (of_Z 1).
Proof.
  apply (ratio_within_gate (example_state (of_Z 0) (Q2Qc (inject_Z 800))));
    reflexivity.
Defined.

(** X11.  For an element or a window of positive height, the ratio does
    not rise as the page scrolls down; with finite [startOffset], and
    [distance] finite and positive, the offset [doMovement] writes does not
    fall.  (The exact values fall and rise strictly; rounding can make two
    of them equal.) *)
Theorem ratio_decreases_with_scroll (s : St) (y1 y2 : Qc) :
  0 < offsetHeight (this_element_of s) + innerHeight (window (host s)) ->
  (y1 <= y2)%Qc ->
  num_le (eval getOffsetPercentage (scrolled_to y2 s))
    (eval getOffsetPercentage (scrolled_to y1 s))
  /\ (is_finite (This.startOffset (self s)) ->
      is_finite (This.distance (self s)) ->
      num_lt (of_Z 0) (This.distance (self s)) ->
      forall o1 o2,
        doMovement_value (scrolled_to y1 s) = Cat3 "center " o1 "px" ->
        doMovement_value (scrolled_to y2 s) = Cat3 "center " o2 "px" ->
        num_le o1 o2).
Proof.
  intros Hpos Hy.
  pose proof (getOffsetPercentage_ratio (scrolled_to y1 s) Hpos) as R1.
  pose proof (getOffsetPercentage_ratio (scrolled_to y2 s) Hpos) as R2.
  cbn [scrolled_to this_element_of host self dom window pageYOffset
       innerHeight] in R1, R2.
  fold (this_element_of s) in R1, R2.
  set (L := Q2Qc (inject_Z (offsetTop (this_element_of s)
                            + offsetHeight (this_element_of s)))) in *.
  set (D := Q2Qc (inject_Z (offsetHeight (this_element_of s)
                            + innerHeight (window (host s))))) in *.
  assert (HD : (0 < D)%Qc) by (apply (Q2Qc_inject_Z_lt 0); exact Hpos).
  pose proof (Qcinv_pos D HD) as Hinv.
  assert (Hr : ((L - y2) * / D <= (L - y1) * / D)%Qc).
  { apply Qcmult_le_compat_r; [|now apply Qclt_le_weak].
    now apply Qcle_sub_l. }
  split.
  - rewrite R1, R2. now apply num_le_Fin.
  - intros Hso Hd Hd0 o1 o2 E1 E2.
    unfold doMovement_value in E1, E2. rewrite R1 in E1. rewrite R2 in E2.
    cbn [scrolled_to self] in E1, E2.
    destruct (This.startOffset (self s)) as [so| | |]; try contradiction.
    destruct (This.distance (self s)) as [d| | |]; try contradiction.
    apply num_ltb_Fin in Hd0.
    injection E1 as <-. injection E2 as <-.
    unfold num_sub. cbn [num_mul num_neg num_add]. apply num_le_Fin.
    apply Qcle_minus_iff.
    replace (so + - ((L - y2) * / D * d) + - (so + - ((L - y1) * / D * d)))%Qc
      with (((L - y1) * / D + - ((L - y2) * / D)) * d)%Qc by ring.
    replace 0%Qc with (0 * d)%Qc by ring.
    apply Qcmult_le_compat_r; [|now apply Qclt_le_weak].
    now apply Qcle_minus_iff in Hr.
Qed.

(** The example geometry: scrolling from 600 to 800 does not raise the
    ratio. *)
Lemma ratio_decreases_with_scroll_witness :
  num_le
    (eval getOffsetPercentage
       (scrolled_to (Q2Qc (inject_Z 800))
          (example_state (of_Z 0) (Q2Qc (inject_Z 0)))))
    (eval getOffsetPercentage
       (scrolled_to (Q2Qc (inject_Z 600))
          (example_state (of_Z 0) (Q2Qc (inject_Z 0))))).
Proof.
  refine (proj1 (ratio_decreases_with_scroll
                   (example_state (of_Z 0) (Q2Qc (inject_Z 0)))
                   (Q2Qc (inject_Z 600)) (Q2Qc (inject_Z 800)) _ _));
    [reflexivity|discriminate].
Defined.

(** X12.  When [stop] is not above [start] (a start bias of the height of
    the element plus the height of the window, or more), no scroll position
    is inside the bounds: [parallax] never moves the background. *)
Theorem gate_empty (s : St) (y : Qc) :
  num_le (This.stop (self s)) (This.start (self s)) ->
  gate_open (scrolled_to y s) = false
  /\ parallax (scrolled_to y s) = (tt, scrolled_to y s).
Proof.
  intros H.
  assert (G : gate_open (scrolled_to y s) = false).
  { unfold gate_open, num_gtb. cbn [scrolled_to self host window pageYOffset].
    apply not_true_is_false. intros B. apply andb_true_iff in B.
    destruct B as [B1 B2].
    destruct (This.start (self s)) as [a| | |];
      destruct (This.stop (self s)) as [b| | |];
      cbn [num_ltb] in B1, B2; try discriminate;
      unfold num_le in H; cbn [num_leb num_ltb] in H; try discriminate.
    apply negb_true_iff in H.
    apply (proj1 (num_ltb_Fin _ _)) in B1, B2.
    pose proof (Qclt_trans _ _ _ B1 B2) as C.
    apply num_ltb_Fin in C. cbn [num_ltb] in C. congruence. }
  split; [exact G|].
  rewrite parallax_run. fold (gate_open (scrolled_to y s)). now rewrite G.
Qed.

(** The example geometry with a start bias of 1200: the bounds are both
    1400. *)
Lemma gate_empty_witness :
  parallax
    (scrolled_to (Q2Qc (inject_Z 1400))
       (mkSt
          (This.mk 0%nat (of_Z 0) (of_Z 200) (of_Z 1400) (of_Z 1400)
             (of_Z 1024) (of_Z 15) false 0%nat)
          (example_host (Q2Qc (inject_Z 0)))))
  = (tt,
     scrolled_to (Q2Qc (inject_Z 1400))
       (mkSt
          (This.mk 0%nat (of_Z 0) (of_Z 200) (of_Z 1400) (of_Z 1400)
             (of_Z 1024) (of_Z 15) false 0%nat)
          (example_host (Q2Qc (inject_Z 0))))).
Proof.
  apply (gate_empty
           (mkSt
              (This.mk 0%nat (of_Z 0) (of_Z 200) (of_Z 1400) (of_Z 1400)
                 (of_Z 1024) (of_Z 15) false 0%nat)
              (example_host (Q2Qc (inject_Z 0))))
           (Q2Qc (inject_Z 1400))).
  reflexivity.
Defined.

(** ** What the constructor leaves *)

Lemma truthy_or_num (v : option num) (d : num) :
  truthy d = true -> truthy (or_num v d) = true.
Proof.
  intros H. destruct v as [a|]; cbn [or_num]; [|exact H].
  now destruct (truthy a) eqn:E.
Qed.

Lemma or_num_falsy (a d : num) : truthy a = false -> or_num (Some a) d = d.
Proof. intros H. cbn [or_num]. now rewrite H. Qed.

Lemma truthy_inv_not_NaN (a : num) :
  truthy a = true -> num_div (of_Z 1) a <> NaN.
Proof.
  destruct a as [q| | |]; cbn [truthy]; try discriminate.
  rewrite negb_true_iff. intros H. unfold of_Z. cbn [num_div].
  rewrite H. discriminate.
Qed.

(** X7.  After construction [distance], [breakpoint] and [throttling] are
    never 0 nor NaN: a value of 0 or NaN given for one of them is replaced
    by the default, like a missing one.  So [1/throttling] divides by no
    zero and is not NaN; [startOffset] and [start] are not NaN and [stop]
    is finite. *)
Theorem Parallax_options_truthy (cfg : Cfg.t) (h : Host) (cfg' : Cfg.t)
    (this : This.t) (h' : Host) :
  Parallax cfg h = Normal (cfg', this, h') ->
  (truthy (This.distance this) = true
   /\ truthy (This.breakpoint this) = true
   /\ truthy (This.throttling this) = true)
  /\ (forall a, Cfg.distance cfg = Some a -> truthy a = false ->
      This.distance this = of_Z 200)
  /\ (forall a, Cfg.breakpoint cfg = Some a -> truthy a = false ->
      This.breakpoint this = of_Z 1024)
  /\ (forall a, Cfg.throttling cfg = Some a -> truthy a = false ->
      This.throttling this = of_Z 15)
  /\ num_div (of_Z 1) (This.throttling this) <> NaN
  /\ This.startOffset this <> NaN
  /\ This.start this <> NaN
  /\ is_finite (This.stop this).
Proof.
  intros H. apply Parallax_inv in H.
  destruct H as (node & _ & _ & -> & _).
  cbn [This.startOffset This.distance This.breakpoint This.throttling
       This.start This.stop].
  assert (T : truthy (or_num (Cfg.throttling cfg) (of_Z 15)) = true)
    by now apply truthy_or_num.
  split; [repeat split; try exact T; now apply truthy_or_num|].
  split; [intros a -> Ha; now apply or_num_falsy|].
  split; [intros a -> Ha; now apply or_num_falsy|].
  split; [intros a -> Ha; now apply or_num_falsy|].
  split; [now apply truthy_inv_not_NaN|].
  split; [apply or_num_not_NaN|].
  split.
  - unfold start_bound, of_Z, num_sub. cbn [num_neg num_add].
    apply num_add_Fin_not_NaN, (or_num_not_NaN _ 0).
  - exact I.
Qed.

(** A distance and a throttling of 0 become 200 and 15. *)
Lemma Parallax_options_truthy_witness :
  exists cfg' this h',
    Parallax
      (Cfg.mk (Some 0%nat) None (Some (of_Z 0)) None None None
         (Some (of_Z 0)) None)
      (example_host (Q2Qc (inject_Z 800)))
    = Normal (cfg', this, h')
    /\ This.distance this = of_Z 200
    /\ This.throttling this = of_Z 15.
Proof.
  eexists _, _, _. split; [reflexivity|].
  destruct (Parallax_options_truthy
              (Cfg.mk (Some 0%nat) None (Some (of_Z 0)) None None None
                 (Some (of_Z 0)) None)
              (example_host (Q2Qc (inject_Z 800))) _ _ _ eq_refl)
    as (_ & Hd & _ & Ht & _).
  split; [apply (Hd (of_Z 0))|apply (Ht (of_Z 0))]; reflexivity.
Defined.

(** The host after construction is the host after [init]. *)
Lemma Parallax_host (cfg : Cfg.t) (h : Host) (cfg' : Cfg.t) (this : This.t)
    (h' : Host) :
  Parallax cfg h = Normal (cfg', this, h') ->
  h' = host (exec init (mkSt this (snd (helpers_throttle h))))
  /\ This.registerMe this = next_fn h.
Proof.
  intros H. pose proof (Parallax_inv _ _ _ _ _ H) as (node & _ & _ & Ht & _).
  revert H. unfold Parallax.
  destruct (Cfg.element cfg) as [node'|]; [|discriminate].
  cbv zeta. unfold helpers_throttle, fresh_fn.
  match goal with
  | |- Normal (_, self (exec init ?s), _) = _ -> _ => set (s0 := s)
  end.
  pose proof (frames_init s0) as F. apply frame_self in F.
  fold (exec init s0) in F.
  intros E. injection E as _ E1 E2. rewrite F in E1.
  split; [|now rewrite Ht].
  rewrite <- E2, <- E1. reflexivity.
Qed.

Lemma handler_registered (s : St) :
  In (This.registerMe (self s)) (onscroll (window (host (exec handler s))))
  <-> num_lt (This.breakpoint (self s))
        (of_Z (innerWidth (window (host s)))).
Proof.
  unfold exec. rewrite handler_run. unfold num_gtb, num_lt.
  destruct (num_ltb _ _).
  - split; [reflexivity|]. intros _. apply add_listener_In.
  - split; [|discriminate]. intros H.
    now apply remove_listener_not_In in H.
Qed.

Lemma handleRegisters_window (s : St) :
  onscroll (window (host (exec handleRegisters s)))
  = onscroll (window (host (exec handler s)))
  /\ In (next_fn (host s))
        (onresize (window (host (exec handleRegisters s))))
  /\ next_fn (host (exec handleRegisters s)) = S (next_fn (host s)).
Proof.
  unfold handleRegisters, handler, register, unregister, helpers_debounce,
    fresh_fn, window_addEventListener_scroll,
    window_removeEventListener_scroll, window_addEventListener_resize.
  run. destruct (num_gtb _ _); cbn [host window onscroll onresize
    with_onscroll with_onresize next_fn];
    (split; [reflexivity|split; [apply add_listener_In|reflexivity]]).
Qed.

(** X8.  After construction the scroll listener of the object is registered
    exactly when the window is wider than the breakpoint the object holds,
    and one more resize listener is registered whatever the width; the two
    listeners are the two function objects the constructor created. *)
Theorem Parallax_listeners (cfg : Cfg.t) (h : Host) (cfg' : Cfg.t)
    (this : This.t) (h' : Host) :
  Parallax cfg h = Normal (cfg', this, h') ->
  This.registerMe this = next_fn h
  /\ (In (This.registerMe this) (onscroll (window h'))
      <-> num_lt (This.breakpoint this) (of_Z (innerWidth (window h))))
  /\ In (S (next_fn h)) (onresize (window h'))
  /\ next_fn h' = S (S (next_fn h)).
Proof.
  intros H. apply Parallax_host in H. destruct H as [-> Hr].
  split; [exact Hr|].
  set (s0 := mkSt this (snd (helpers_throttle h))).
  destruct (init_exec s0) as (s1 & E & _ & _ & _ & W & X & _).
  destruct (style_only_parallax s1) as [_ W1 X1].
  fold (exec parallax s1) in W1, X1.
  destruct (handleRegisters_window s0) as (Hs & Hz & Hn).
  rewrite E, W1, X1, W, X, Hs, Hn.
  split; [apply (handler_registered s0)|].
  split; [exact Hz|reflexivity].
Qed.

(** A window of width 1280 with the default breakpoint: the scroll listener
    is registered. *)
Lemma Parallax_listeners_witness :
  exists cfg' this h',
    Parallax example_cfg (example_host (Q2Qc (inject_Z 800)))
    = Normal (cfg', this, h')
    /\ In (This.registerMe this) (onscroll (window h'))
    /\ In 1%nat (onresize (window h')).
Proof.
  eexists _, _, _. split; [reflexivity|].
  destruct (Parallax_listeners example_cfg
              (example_host (Q2Qc (inject_Z 800))) _ _ _ eq_refl)
    as (_ & Hs & Hz & _).
  split; [apply Hs; reflexivity|exact Hz].
Defined.


